(** * mwait: a MONITOR/MWAIT store detector (Windows kernel driver)

    Shallow embedding of [src/mwait/include.hpp] and [src/mwait/main.cxx].

    The driver runs three threads: the loader thread ([DriverEntry], later
    [DriverUnload]), the [Worker] thread and the [Monitor] thread.  Each
    function is embedded as a Rocq function from the values its environment
    hands back (statuses of kernel calls, time-stamp counter readings, the
    values found in memory) to the list of effects it performs, in program
    order.  A loop that may run forever is given a finite list of
    per-iteration inputs and reports whether it returned or is still looping
    once they are used up.

    Integers are [Z].  The build is x64: [ULONG_PTR] and [ULONG64] are both
    64 bits wide, [NTSTATUS] is a signed 32-bit [LONG]. *)

From stdpp Require Import base numbers list gmap.

Local Open Scope Z_scope.

(** ** Kernel types and macros (WDK) *)

Definition NTSTATUS := Z.

Definition STATUS_SUCCESS : NTSTATUS := 0.
Definition STATUS_TIMEOUT : NTSTATUS := 0x102.
Definition STATUS_INSUFFICIENT_RESOURCES : NTSTATUS := 0xC000009A - 2 ^ 32.

(** [#define NT_SUCCESS(Status) (((NTSTATUS)(Status)) >= 0)] *)
Definition NT_SUCCESS (Status : NTSTATUS) : bool := 0 <=? Status.

(** Unsigned 64-bit wrap-around, for [__rdtsc ( ) - Start]. *)
Definition wrap64 (z : Z) : Z := z mod 2 ^ 64.

(** A [KeDelayExecutionThread] / [KeWaitForSingleObject] interval counts units
    of 100 nanoseconds; a negative value is relative to the current time, a
    non-negative one is an absolute system time. *)
Definition relative_delay_ns (Interval : Z) : option Z :=
  if Interval <? 0 then Some (- Interval * 100) else None.

Definition ms_to_ns (ms : Z) : Z := ms * 1000 * 1000.


(** ** [include.hpp]: namespace [mw] *)

Module mw.

(** [inline LARGE_INTEGER Sleep = { .QuadPart = -( 1 * 100 * 1000 ) };] *)
Definition Sleep : Z := - (1 * 100 * 1000).
Definition NoSleep : Z := 0.

(** Initial value of the global [TestVariable]. *)
Definition TestVariable : Z := 0.

Definition MONITOR_THREAD_CPU_AFFINITY : Z := 1.
Definition WORKER_THREAD_CPU_AFFINITY : Z := 4.

Definition MAGIC : Z := 0xEEFFEEFFEEFFEEFF.
Definition THREAD_COUNT : Z := 2.

Record MONITOR_CONTEXT := {
  MonitoredAddress : Z;
  MonitorExit : bool
}.

Record MWDEVICE_EXTENSION := {
  WorkerHandle : Z;
  WorkerCid : Z;
  MonitorThreadHandle : Z;
  MonitorCid : Z;
  Self : Z;
  Unload : bool;
  MonitorContext : MONITOR_CONTEXT
}.

End mw.

(** ** Effects *)

(** The observable steps of the driver, one constructor per call or memory
    access of the source:
    - [EvLog]: a [logmsg];
    - [EvSetAffinity mask]: [KeSetSystemAffinityThread ( mask )];
    - [EvAssert b]: an [NT_ASSERT] whose condition evaluated to [b] (the
      macro does not change the control flow of the function: it is compiled
      out of free builds and raises a continuable breakpoint in checked ones);
    - [EvDisable], [EvEnable]: [_disable ( )] and [_enable ( )], the
      constructor and the destructor of [INTERRUPT_GUARD];
    - [EvRdtsc v]: [__rdtsc ( )] returning [v];
    - [EvMonitor a], [EvMwait]: [_mm_monitor] on address [a], [_mm_mwait];
    - [EvLoad a v], [EvStore a v]: a read of the word at address [a] giving
      [v], a write of [v] to it, through [reinterpret_cast< ULONG_PTR* >];
    - [EvCreateThread]: [PsCreateSystemThread] for the given entry point;
    - [EvPollUnload st]: [KeWaitForSingleObject] on [Ext->Unload] with the
      zero timeout [mw::NoSleep], returning [st];
    - [EvDelay]: [KeDelayExecutionThread] with the given interval;
    - [EvLookupThread], [EvJoin], [EvZwClose], [EvDereference]:
      [PsLookupThreadByThreadId], the untimed [KeWaitForSingleObject] on a
      thread object, [ZwClose], [ObfDereferenceObject];
    - [EvIoCreateDevice] ... [EvIoDeleteDevice]: the device and symbolic-link
      calls of [DriverEntry] and [DriverUnload];
    - [EvZeroExtension]: the [memset] of the device extension (memory
      allocated by [IoCreateDevice], disjoint from the driver's globals);
    - [EvInitUnload], [EvSetUnload]: [KeInitializeEvent] and [KeSetEvent] on
      [Ext->Unload]. *)

Inductive thread_entry := EntryWorker | EntryMonitor.

Inductive log_message :=
  | LogMonitoring (Address : Z)
  | LogStoreDetected (cpu Address Previous MostRecentRead delta : Z)
  | LogUnableToCreateThread (Status : NTSTATUS)
  | LogWorkerExited
  | LogBye
  | LogUnableToCreateDevice (Status : NTSTATUS)
  | LogUnableToCreateSymbolicLink (Status : NTSTATUS)
  | LogUnableToCreateSystemThread (Status : NTSTATUS).

Inductive event :=
  | EvLog (m : log_message)
  | EvSetAffinity (mask : Z)
  | EvAssert (holds : bool)
  | EvDisable
  | EvEnable
  | EvRdtsc (tsc : Z)
  | EvMonitor (addr : Z)
  | EvMwait
  | EvLoad (addr v : Z)
  | EvStore (addr v : Z)
  | EvCreateThread (entry : thread_entry) (Status : NTSTATUS)
  | EvPollUnload (Status : NTSTATUS)
  | EvDelay (Interval : Z)
  | EvLookupThread (cid : Z) (Status : NTSTATUS)
  | EvJoin (target : thread_entry)
  | EvZwClose (handle : Z)
  | EvDereference
  | EvIoCreateDevice (Status : NTSTATUS)
  | EvIoCreateSymbolicLink (Status : NTSTATUS)
  | EvIoDeleteSymbolicLink
  | EvIoDeleteDevice
  | EvZeroExtension
  | EvInitUnload
  | EvSetUnload.

#[global] Instance thread_entry_eq_dec : EqDecision thread_entry.
Proof. solve_decision. Defined.

#[global] Instance log_message_eq_dec : EqDecision log_message.
Proof. solve_decision. Defined.

#[global] Instance event_eq_dec : EqDecision event.
Proof. solve_decision. Defined.

(** Whether a loop has left through its [break], or is still iterating when
    the recorded inputs end.  For a whole function, [Returned] says that its
    trace is complete: it lists every effect up to the [return], the blocking
    calls among them (the untimed waits recorded as [EvJoin]) being taken to
    have come back.  Whether such a wait does come back depends on the thread
    waited for and is not part of this status. *)
Inductive thread_status := Returned | Looping.

Definition is_store (e : event) : bool :=
  match e with EvStore _ _ => true | _ => false end.

Definition is_load (e : event) : bool :=
  match e with EvLoad _ _ => true | _ => false end.

Definition is_arm (e : event) : bool :=
  match e with EvMonitor _ => true | _ => false end.

Definition is_report (e : event) : bool :=
  match e with EvLog (LogStoreDetected _ _ _ _ _) => true | _ => false end.

Definition is_delay (e : event) : bool :=
  match e with EvDelay _ => true | _ => false end.

Definition count (p : event -> bool) (tr : list event) : nat :=
  length (List.filter p tr).

(** ** Memory: 64-bit cells by address *)

(** The words the driver reaches by dereferencing a pointer, that is the
    monitored cell.  The fields of the device extension, among them the
    handle and the client id that [PsCreateSystemThread] writes through its
    out-parameters, are carried by the records and the environments, not by
    this memory. *)

Definition exec_event (e : event) (m : gmap Z Z) : gmap Z Z :=
  match e with
  | EvStore a v => <[a := v]> m
  | _ => m
  end.

Definition run_trace (m : gmap Z Z) (tr : list event) : gmap Z Z :=
  foldl (fun m e => exec_event e m) m tr.

(** Whether every load of a trace returns what memory holds at that point. *)
Fixpoint loads_consistent (m : gmap Z Z) (tr : list event) : bool :=
  match tr with
  | [] => true
  | EvLoad a v :: tr' => bool_decide (m !! a = Some v) && loads_consistent m tr'
  | e :: tr' => loads_consistent (exec_event e m) tr'
  end.

(** The interrupt flag at the moment each effect takes place. *)
Fixpoint with_interrupt_flag (enabled : bool) (tr : list event)
  : list (event * bool) :=
  match tr with
  | [] => []
  | EvDisable :: tr' => (EvDisable, enabled) :: with_interrupt_flag false tr'
  | EvEnable :: tr' => (EvEnable, enabled) :: with_interrupt_flag true tr'
  | e :: tr' => (e, enabled) :: with_interrupt_flag enabled tr'
  end.

(** ** [main.cxx]: [Monitor] *)

(** What one pass through the body of the [for ( ;; )] of [Monitor] takes from
    its environment: the counter read into [Start], the word found at the
    monitored address after the wait, and, for the report, the current
    processor number and the second counter reading. *)
Record monitor_input := {
  mi_start : Z;
  mi_sample : Z;
  mi_cpu : Z;
  mi_end : Z
}.

Record monitor_env := {
  me_cpu : Z;
  me_inputs : list monitor_input
}.

(** One iteration: effects, the new [MostRecentRead], and whether [break] was
    taken.  The [INTERRUPT_GUARD] object is declared first in the loop body, so
    its constructor runs first and its destructor runs when the body's scope
    is left, at the end of the iteration or through [break]. *)
Definition monitor_iteration (Address MostRecentRead : Z) (i : monitor_input)
  : list event * Z * bool :=
  let Start := mi_start i in
  let Previous := MostRecentRead in
  let MostRecentRead := mi_sample i in
  ([EvDisable; EvRdtsc Start; EvMonitor Address; EvMwait;
    EvLoad Address MostRecentRead]
   ++ (if bool_decide (Previous ≠ MostRecentRead)
       then [EvRdtsc (mi_end i);
             EvLog (LogStoreDetected (mi_cpu i) Address Previous MostRecentRead
                      (wrap64 (mi_end i - Start)))]
       else [])
   ++ [EvEnable],
   MostRecentRead,
   bool_decide (MostRecentRead = mw.MAGIC)).

Arguments monitor_iteration : simpl never.

Fixpoint monitor_loop (Address MostRecentRead : Z) (inputs : list monitor_input)
  : list event * thread_status :=
  match inputs with
  | [] => ([], Looping)
  | i :: rest =>
      let r := monitor_iteration Address MostRecentRead i in
      if r.2 then (r.1.1, Returned)
      else
        let k := monitor_loop Address r.1.2 rest in
        (r.1.1 ++ k.1, k.2)
  end.

Definition Monitor (Context : mw.MONITOR_CONTEXT) (env : monitor_env)
  : list event * thread_status :=
  let Address := mw.MonitoredAddress Context in
  let MostRecentRead := 0 in
  let k := monitor_loop Address MostRecentRead (me_inputs env) in
  ([EvLog (LogMonitoring Address);
    EvSetAffinity mw.MONITOR_THREAD_CPU_AFFINITY;
    EvAssert (bool_decide (me_cpu env ≠ mw.MONITOR_THREAD_CPU_AFFINITY))]
   ++ k.1,
   k.2).

(** ** [main.cxx]: [Worker] *)

(** What one pass through the [for ( ;; )] of [Worker] takes from its
    environment: the status of the zero-timeout wait on [Ext->Unload] and the
    counter reading (used only when the wait did not succeed). *)
Record worker_input := {
  wi_unload : NTSTATUS;
  wi_tsc : Z
}.

Record worker_env := {
  we_cpu : Z;
  we_create : NTSTATUS;
  we_handle : Z;
  we_cid : Z;
  we_inputs : list worker_input;
  we_lookup : NTSTATUS
}.

(** [( TimeStamp & 0xff ) == 0] *)
Definition low_byte_clear (TimeStamp : Z) : bool :=
  bool_decide (Z.land TimeStamp 0xff = 0).

Definition worker_iteration (Address : Z) (i : worker_input)
  : list event * bool :=
  let IsExiting := bool_decide (wi_unload i = STATUS_SUCCESS) in
  if IsExiting then
    ([EvPollUnload (wi_unload i); EvStore Address mw.MAGIC], true)
  else
    let TimeStamp := wi_tsc i in
    ([EvPollUnload (wi_unload i); EvRdtsc TimeStamp]
     ++ (if low_byte_clear TimeStamp then [EvStore Address TimeStamp] else [])
     ++ [EvDelay mw.Sleep],
     false).

Fixpoint worker_loop (Address : Z) (inputs : list worker_input)
  : list event * thread_status :=
  match inputs with
  | [] => ([], Looping)
  | i :: rest =>
      let r := worker_iteration Address i in
      if r.2 then (r.1, Returned)
      else
        let k := worker_loop Address rest in
        (r.1 ++ k.1, k.2)
  end.

(** The tail of [Worker], after the loop. *)
Definition worker_join (MonitorCid MonitorThreadHandle : Z) (Status : NTSTATUS)
  : list event :=
  EvLookupThread MonitorCid Status
  :: (if NT_SUCCESS Status
      then [EvJoin EntryMonitor; EvZwClose MonitorThreadHandle; EvDereference]
      else []).

Definition worker_prologue (env : worker_env) : list event :=
  [EvSetAffinity mw.WORKER_THREAD_CPU_AFFINITY;
   EvAssert (bool_decide (we_cpu env ≠ mw.WORKER_THREAD_CPU_AFFINITY));
   EvCreateThread EntryMonitor (we_create env)].

Definition Worker (Ext : mw.MWDEVICE_EXTENSION) (env : worker_env)
  : list event * thread_status :=
  let Status := we_create env in
  if negb (NT_SUCCESS Status) then
    (worker_prologue env ++ [EvLog (LogUnableToCreateThread Status)], Returned)
  else
    (* PsCreateSystemThread stored the handle and the client id in [Ext] *)
    let MonitorThreadHandle := we_handle env in
    let MonitorCid := we_cid env in
    let Address := mw.MonitoredAddress (mw.MonitorContext Ext) in
    let k := worker_loop Address (we_inputs env) in
    match k.2 with
    | Looping => (worker_prologue env ++ k.1, Looping)
    | Returned =>
        (worker_prologue env ++ k.1
         ++ worker_join MonitorCid MonitorThreadHandle (we_lookup env),
         Returned)
    end.

(** ** [main.cxx]: [DriverUnload] *)

Definition DriverUnload (Ext : mw.MWDEVICE_EXTENSION) (lookup : NTSTATUS)
  : list event :=
  [EvSetUnload; EvLookupThread (mw.WorkerCid Ext) lookup]
  ++ (if NT_SUCCESS lookup
      then [EvJoin EntryWorker; EvLog LogWorkerExited;
            EvZwClose (mw.WorkerHandle Ext); EvDereference]
      else [])
  ++ [EvIoDeleteSymbolicLink; EvIoDeleteDevice; EvLog LogBye].

(** ** [main.cxx]: [DriverEntry] *)

(** [entry_TestVariable] is [&mw::TestVariable]; [entry_device] is the pointer
    [IoCreateDevice] stores in [DeviceObject] when it succeeds (the variable
    keeps its [nullptr] otherwise). *)
Record entry_env := {
  entry_TestVariable : Z;
  entry_create_device : NTSTATUS;
  entry_device : Z;
  entry_create_symlink : NTSTATUS;
  entry_create_worker : NTSTATUS;
  entry_worker_handle : Z;
  entry_worker_cid : Z
}.

Record entry_result := {
  er_status : NTSTATUS;
  er_trace : list event;
  er_ext : option mw.MWDEVICE_EXTENSION
}.

(** The device extension as [DriverEntry] leaves it when the worker thread has
    been created. *)
Definition initial_extension (env : entry_env) : mw.MWDEVICE_EXTENSION :=
  {| mw.WorkerHandle := entry_worker_handle env;
     mw.WorkerCid := entry_worker_cid env;
     mw.MonitorThreadHandle := 0;
     mw.MonitorCid := 0;
     mw.Self := entry_device env;
     mw.Unload := false;
     mw.MonitorContext :=
       {| mw.MonitoredAddress := entry_TestVariable env;
          mw.MonitorExit := false |} |}.

Definition DriverEntry (env : entry_env) : entry_result :=
  (* do { ... } while ( false ); *)
  let '(Status, CreatedSymbolicLink, DeviceObject, tr) :=
    let Status := entry_create_device env in
    if negb (NT_SUCCESS Status) then
      (Status, false, 0,
       [EvIoCreateDevice Status; EvLog (LogUnableToCreateDevice Status)])
    else
      let DeviceObject := entry_device env in
      let Status' := entry_create_symlink env in
      let CreatedSymbolicLink := NT_SUCCESS Status' in
      if negb CreatedSymbolicLink then
        (Status', CreatedSymbolicLink, DeviceObject,
         [EvIoCreateDevice Status; EvIoCreateSymbolicLink Status';
          EvLog (LogUnableToCreateSymbolicLink Status')])
      else
        (Status', CreatedSymbolicLink, DeviceObject,
         [EvIoCreateDevice Status; EvIoCreateSymbolicLink Status'])
  in
  if negb (NT_SUCCESS Status) then
    {| er_status := Status;
       er_trace :=
         tr
         ++ (if CreatedSymbolicLink then [EvIoDeleteSymbolicLink] else [])
         ++ (if bool_decide (DeviceObject ≠ 0) then [EvIoDeleteDevice] else []);
       er_ext := None |}
  else
    let Status := entry_create_worker env in
    if negb (NT_SUCCESS Status) then
      {| er_status := STATUS_SUCCESS;
         er_trace :=
           tr ++ [EvZeroExtension; EvInitUnload;
                  EvCreateThread EntryWorker Status;
                  EvLog (LogUnableToCreateSystemThread Status);
                  EvIoDeleteSymbolicLink; EvIoDeleteDevice];
         er_ext := None |}
    else
      {| er_status := STATUS_SUCCESS;
         er_trace :=
           tr ++ [EvZeroExtension; EvInitUnload;
                  EvCreateThread EntryWorker Status];
         er_ext := Some (initial_extension env) |}.

(** ** The three threads together *)

Inductive tid := TLoader | TWorker | TMonitor.

#[global] Instance tid_eq_dec : EqDecision tid.
Proof. solve_decision. Defined.

Record system_env := {
  sys_entry : entry_env;
  sys_unload : option NTSTATUS;
  sys_worker : worker_env;
  sys_monitor : monitor_env
}.

(** The effects of each thread, in its own program order.  A thread that was
    never created performs none. *)
Definition thread_trace (s : system_env) (t : tid) : list event :=
  let r := DriverEntry (sys_entry s) in
  match er_ext r with
  | None =>
      match t with TLoader => er_trace r | _ => [] end
  | Some Ext =>
      match t with
      | TLoader =>
          er_trace r
          ++ match sys_unload s with
             | Some lookup => DriverUnload Ext lookup
             | None => []
             end
      | TWorker => (Worker Ext (sys_worker s)).1
      | TMonitor =>
          if NT_SUCCESS (we_create (sys_worker s))
          then (Monitor (mw.MonitorContext Ext) (sys_monitor s)).1
          else []
      end
  end.

Definition project (t : tid) (tr : list (tid * event)) : list event :=
  (List.filter (fun x => bool_decide (x.1 = t)) tr).*2.

(** A global trace is an execution when each thread's part of it is what that
    thread's code does; the threads may interleave in any way.  (The values
    loaded are left to the environment; [loads_consistent] singles out the
    traces in which they are those of a sequentially consistent memory.) *)
Definition execution (s : system_env) (tr : list (tid * event)) : Prop :=
  forall t, project t tr = thread_trace s t.

(** ** Reference notions used to state the properties *)

(** The samples up to and including the first sentinel. *)
Fixpoint until_magic (samples : list Z) : list Z :=
  match samples with
  | [] => []
  | v :: rest => if bool_decide (v = mw.MAGIC) then [v] else v :: until_magic rest
  end.

(** The consecutive pairs (prev, curr) of a sample sequence that differ. *)
Fixpoint changed_pairs (prev : Z) (samples : list Z) : list (Z * Z) :=
  match samples with
  | [] => []
  | curr :: rest =>
      (if bool_decide (prev ≠ curr) then [(prev, curr)] else [])
      ++ changed_pairs curr rest
  end.

(** The (previous, new) pairs of the detected-store reports of a trace. *)
Fixpoint reports_of (tr : list event) : list (Z * Z) :=
  match tr with
  | [] => []
  | EvLog (LogStoreDetected _ _ Previous MostRecentRead _) :: tr' =>
      (Previous, MostRecentRead) :: reports_of tr'
  | _ :: tr' => reports_of tr'
  end.

(** The value [MostRecentRead] holds after the given iterations. *)
Definition last_read (MostRecentRead : Z) (inputs : list monitor_input) : Z :=
  foldl (fun _ i => mi_sample i) MostRecentRead inputs.

(** Memory when the driver image has just been loaded: the global holds its
    initialiser. *)
Definition initial_memory (TestVariable_addr : Z) : gmap Z Z :=
  {[ TestVariable_addr := mw.TestVariable ]}.

(** ** A sample execution *)

(** A complete run: load, one Worker write observed by the Monitor, unload. *)
Definition sample_system : system_env :=
  {| sys_entry :=
       {| entry_TestVariable := 4096;
          entry_create_device := STATUS_SUCCESS;
          entry_device := 77;
          entry_create_symlink := STATUS_SUCCESS;
          entry_create_worker := STATUS_SUCCESS;
          entry_worker_handle := 5;
          entry_worker_cid := 6 |};
     sys_unload := Some STATUS_SUCCESS;
     sys_worker :=
       {| we_cpu := 2; we_create := STATUS_SUCCESS; we_handle := 7; we_cid := 8;
          we_inputs := [ {| wi_unload := STATUS_TIMEOUT; wi_tsc := 256 |};
                         {| wi_unload := STATUS_SUCCESS; wi_tsc := 0 |} ];
          we_lookup := STATUS_SUCCESS |};
     sys_monitor :=
       {| me_cpu := 0;
          me_inputs :=
            [ {| mi_start := 10; mi_sample := 256; mi_cpu := 0; mi_end := 25 |};
              {| mi_start := 30; mi_sample := mw.MAGIC; mi_cpu := 0;
                 mi_end := 45 |} ] |} |}.

Definition sample_run : list (tid * event) :=
  [(TLoader, EvIoCreateDevice 0); (TLoader, EvIoCreateSymbolicLink 0);
   (TLoader, EvZeroExtension); (TLoader, EvInitUnload);
   (TLoader, EvCreateThread EntryWorker 0);
   (TWorker, EvSetAffinity 4); (TWorker, EvAssert true);
   (TWorker, EvCreateThread EntryMonitor 0);
   (TMonitor, EvLog (LogMonitoring 4096)); (TMonitor, EvSetAffinity 1);
   (TMonitor, EvAssert true);
   (TMonitor, EvDisable); (TMonitor, EvRdtsc 10); (TMonitor, EvMonitor 4096);
   (TMonitor, EvMwait);
   (TWorker, EvPollUnload 258); (TWorker, EvRdtsc 256);
   (TWorker, EvStore 4096 256);
   (TMonitor, EvLoad 4096 256); (TMonitor, EvRdtsc 25);
   (TMonitor, EvLog (LogStoreDetected 0 4096 0 256 15)); (TMonitor, EvEnable);
   (TWorker, EvDelay (-100000));
   (TMonitor, EvDisable); (TMonitor, EvRdtsc 30); (TMonitor, EvMonitor 4096);
   (TMonitor, EvMwait);
   (TLoader, EvSetUnload); (TLoader, EvLookupThread 6 0);
   (TLoader, EvJoin EntryWorker);
   (TWorker, EvPollUnload 0); (TWorker, EvStore 4096 mw.MAGIC);
   (TWorker, EvLookupThread 8 0); (TWorker, EvJoin EntryMonitor);
   (TMonitor, EvLoad 4096 mw.MAGIC); (TMonitor, EvRdtsc 45);
   (TMonitor, EvLog (LogStoreDetected 0 4096 256 mw.MAGIC 15));
   (TMonitor, EvEnable);
   (TWorker, EvZwClose 7); (TWorker, EvDereference);
   (TLoader, EvLog LogWorkerExited); (TLoader, EvZwClose 5);
   (TLoader, EvDereference);
   (TLoader, EvIoDeleteSymbolicLink); (TLoader, EvIoDeleteDevice);
   (TLoader, EvLog LogBye)].

(** ** [main.cxx]: [DrvCreateClose] and the driver object *)

(** The part of an [IRP] the handler touches: [IoStatus], and whether
    [IoCompleteRequest] has been called on it. *)
Record IRP := {
  IoStatus_Status : NTSTATUS;
  IoStatus_Information : Z;
  Completed : bool
}.

Definition DrvCreateClose (DeviceObject : Z) (Irp : IRP) : NTSTATUS * IRP :=
  let Irp1 :=
    {| IoStatus_Status := IoStatus_Status Irp;
       IoStatus_Information := 0;
       Completed := Completed Irp |} in
  let Irp2 :=
    {| IoStatus_Status := STATUS_SUCCESS;
       IoStatus_Information := IoStatus_Information Irp1;
       Completed := Completed Irp1 |} in
  (* IoCompleteRequest( Irp, IO_NO_INCREMENT ) *)
  let Irp3 :=
    {| IoStatus_Status := IoStatus_Status Irp2;
       IoStatus_Information := IoStatus_Information Irp2;
       Completed := true |} in
  (STATUS_SUCCESS, Irp3).

(** A routine pointer held by the driver object: one of this driver's two
    routines, or whatever the I/O manager had put there. *)
Inductive routine :=
  | RoutineDrvCreateClose
  | RoutineDriverUnload
  | RoutineForeign (p : Z).

(** WDK: major function codes and the size of the dispatch table
    ([IRP_MJ_MAXIMUM_FUNCTION + 1] entries). *)
Definition IRP_MJ_CREATE : nat := 0.
Definition IRP_MJ_CLOSE : nat := 2.
Definition IRP_MJ_MAXIMUM_FUNCTION : nat := 27.

Record DRIVER_OBJECT := {
  MajorFunction : list routine;
  DriverUnload_routine : routine
}.

(** The driver object as [DriverEntry] leaves it.  The two assignments to
    [MajorFunction] and the one to [DriverUnload] stand after the early
    [return Status] and before the creation of the worker thread, whose
    failure path does not undo them. *)
Definition DriverEntry_driver_object (env : entry_env)
    (DriverObject : DRIVER_OBJECT) : DRIVER_OBJECT :=
  if negb (NT_SUCCESS (entry_create_device env)) then DriverObject
  else if negb (NT_SUCCESS (entry_create_symlink env)) then DriverObject
  else
    {| MajorFunction :=
         <[IRP_MJ_CREATE := RoutineDrvCreateClose]>
           (<[IRP_MJ_CLOSE := RoutineDrvCreateClose]>
              (MajorFunction DriverObject));
       DriverUnload_routine := RoutineDriverUnload |}.

(** What the I/O manager's call through [MajorFunction[ mj ]] does when the
    slot holds this driver's handler; other routines are not this driver's
    code. *)
Definition dispatch (DriverObject : DRIVER_OBJECT) (mj : nat)
    (DeviceObject : Z) (Irp : IRP) : option (NTSTATUS * IRP) :=
  match MajorFunction DriverObject !! mj with
  | Some RoutineDrvCreateClose => Some (DrvCreateClose DeviceObject Irp)
  | _ => None
  end.

(** ** More notions used to state the properties *)

Definition is_mwait (e : event) : bool :=
  match e with EvMwait => true | _ => false end.

Definition is_poll (e : event) : bool :=
  match e with EvPollUnload _ => true | _ => false end.

Definition is_join (e : event) : bool :=
  match e with EvJoin _ => true | _ => false end.

Definition is_close (e : event) : bool :=
  match e with EvZwClose _ => true | _ => false end.

Definition is_dereference (e : event) : bool :=
  match e with EvDereference => true | _ => false end.

Definition is_thread_creation (e : event) : bool :=
  match e with EvCreateThread _ _ => true | _ => false end.

Definition device_created (e : event) : bool :=
  match e with EvIoCreateDevice Status => NT_SUCCESS Status | _ => false end.

Definition device_deleted (e : event) : bool :=
  match e with EvIoDeleteDevice => true | _ => false end.

Definition link_created (e : event) : bool :=
  match e with EvIoCreateSymbolicLink Status => NT_SUCCESS Status | _ => false end.

Definition link_deleted (e : event) : bool :=
  match e with EvIoDeleteSymbolicLink => true | _ => false end.

(** The (address, value) pairs of the loads of a trace, in order. *)
Fixpoint loads_of (tr : list event) : list (Z * Z) :=
  match tr with
  | [] => []
  | EvLoad a v :: tr' => (a, v) :: loads_of tr'
  | _ :: tr' => loads_of tr'
  end.

(** The statuses of the polls of the unload event in a trace, in order. *)
Fixpoint polls_of (tr : list event) : list NTSTATUS :=
  match tr with
  | [] => []
  | EvPollUnload Status :: tr' => Status :: polls_of tr'
  | _ :: tr' => polls_of tr'
  end.

(** The statuses up to and including the first [STATUS_SUCCESS]. *)
Fixpoint until_success (statuses : list NTSTATUS) : list NTSTATUS :=
  match statuses with
  | [] => []
  | st :: rest =>
      if bool_decide (st = STATUS_SUCCESS) then [st] else st :: until_success rest
  end.

(** How many of the given poll statuses are not [STATUS_SUCCESS]. *)
Definition failed_polls (statuses : list NTSTATUS) : nat :=
  length (List.filter (fun st => negb (bool_decide (st = STATUS_SUCCESS)))
            statuses).

(** The kinds of effect the body of the Worker's loop performs. *)
Definition loop_event (e : event) : bool :=
  match e with
  | EvPollUnload _ | EvRdtsc _ | EvStore _ _ | EvDelay _ => true
  | _ => false
  end.

(** The interrupt flag once a trace has run. *)
Definition interrupt_flag_after (enabled : bool) (tr : list event) : bool :=
  foldl (fun flag e =>
           match e with
           | EvDisable => false
           | EvEnable => true
           | _ => flag
           end) enabled tr.

(** A list of (previous, new) pairs is chained from [prev] when the first
    pair starts at [prev], every pair changes the value, and each pair starts
    where the one before ended. *)
Fixpoint chained (prev : Z) (reports : list (Z * Z)) : Prop :=
  match reports with
  | [] => True
  | (p, c) :: rest => p = prev /\ p ≠ c /\ chained c rest
  end.

(** * Properties *)

(** ** Counting effects *)

Lemma count_app p tr1 tr2 :
  count p (tr1 ++ tr2) = (count p tr1 + count p tr2)%nat.
Proof. unfold count. by rewrite List.filter_app, length_app. Qed.

Lemma count_zero_not_elem p tr e :
  count p tr = 0%nat -> p e = true -> e ∉ tr.
Proof.
  unfold count. induction tr as [|x tr IH]; simpl; intros Hc Hp Hin.
  - by apply not_elem_of_nil in Hin.
  - apply elem_of_cons in Hin as [->|Hin].
    + rewrite Hp in Hc. discriminate.
    + destruct (p x); [discriminate | by apply IH].
Qed.

Lemma reports_of_app tr1 tr2 :
  reports_of (tr1 ++ tr2) = reports_of tr1 ++ reports_of tr2.
Proof.
  induction tr1 as [|e tr1 IH]; [done|].
  destruct e as [[]| | | | | | | | | | | | | | | | | | | | | | |];
    simpl; by rewrite ?IH.
Qed.

(** ** The Monitor loop *)

Lemma monitor_iteration_read Address prev i :
  (monitor_iteration Address prev i).1.2 = mi_sample i.
Proof. done. Qed.

Lemma monitor_iteration_break Address prev i :
  (monitor_iteration Address prev i).2 = bool_decide (mi_sample i = mw.MAGIC).
Proof. done. Qed.

Lemma monitor_iteration_loads Address prev i :
  count is_load (monitor_iteration Address prev i).1.1 = 1%nat.
Proof. unfold monitor_iteration; simpl. by case_bool_decide. Qed.

Lemma monitor_iteration_arms Address prev i :
  count is_arm (monitor_iteration Address prev i).1.1 = 1%nat.
Proof. unfold monitor_iteration; simpl. by case_bool_decide. Qed.

Lemma monitor_iteration_stores Address prev i :
  count is_store (monitor_iteration Address prev i).1.1 = 0%nat.
Proof. unfold monitor_iteration; simpl. by case_bool_decide. Qed.

Lemma monitor_iteration_reports Address prev i :
  reports_of (monitor_iteration Address prev i).1.1 =
  if bool_decide (prev ≠ mi_sample i) then [(prev, mi_sample i)] else [].
Proof. unfold monitor_iteration; simpl. by case_bool_decide. Qed.

Lemma last_read_snoc prev pre i :
  last_read prev (pre ++ [i]) = mi_sample i.
Proof. unfold last_read. by rewrite foldl_app. Qed.

Lemma monitor_loop_cons Address prev i rest :
  monitor_loop Address prev (i :: rest) =
  if bool_decide (mi_sample i = mw.MAGIC)
  then ((monitor_iteration Address prev i).1.1, Returned)
  else ((monitor_iteration Address prev i).1.1
        ++ (monitor_loop Address (mi_sample i) rest).1,
        (monitor_loop Address (mi_sample i) rest).2).
Proof. done. Qed.

(** While no sample is the sentinel the loop keeps going, one arming and one
    load per iteration. *)
Lemma monitor_loop_running Address pre : forall prev,
  Forall (fun x => mi_sample x ≠ mw.MAGIC) pre ->
  (monitor_loop Address prev pre).2 = Looping
  /\ count is_load (monitor_loop Address prev pre).1 = length pre
  /\ count is_arm (monitor_loop Address prev pre).1 = length pre.
Proof.
  induction pre as [|x pre IH]; intros prev Hpre; [done|].
  apply Forall_cons in Hpre as [Hx Hpre].
  rewrite monitor_loop_cons, bool_decide_false by done. cbn [fst snd].
  destruct (IH (mi_sample x) Hpre) as (-> & Hl & Ha).
  rewrite !count_app, Hl, Ha.
  by rewrite monitor_iteration_loads, monitor_iteration_arms.
Qed.

(** The iteration that samples the sentinel is the last one, whatever the
    environment would have supplied afterwards. *)
Lemma monitor_loop_sentinel Address pre i post : forall prev,
  Forall (fun x => mi_sample x ≠ mw.MAGIC) pre ->
  mi_sample i = mw.MAGIC ->
  monitor_loop Address prev (pre ++ i :: post) =
  ((monitor_loop Address prev pre).1
   ++ (monitor_iteration Address (last_read prev pre) i).1.1,
   Returned).
Proof.
  induction pre as [|x pre IH]; intros prev Hpre Hi.
  - cbn [app]. by rewrite monitor_loop_cons, bool_decide_true.
  - apply Forall_cons in Hpre as [Hx Hpre].
    rewrite <- app_comm_cons, !monitor_loop_cons, bool_decide_false by done.
    rewrite (IH (mi_sample x) Hpre Hi). cbn [fst snd].
    by rewrite <- app_assoc.
Qed.

Lemma monitor_loop_stores Address inputs : forall prev,
  count is_store (monitor_loop Address prev inputs).1 = 0%nat.
Proof.
  induction inputs as [|x inputs IH]; intros prev; [done|].
  rewrite monitor_loop_cons. case_bool_decide; cbn [fst snd].
  - apply monitor_iteration_stores.
  - by rewrite count_app, IH, monitor_iteration_stores.
Qed.

Lemma monitor_loop_reports Address inputs : forall prev,
  reports_of (monitor_loop Address prev inputs).1 =
  changed_pairs prev (until_magic (mi_sample <$> inputs)).
Proof.
  induction inputs as [|x inputs IH]; intros prev; [done|].
  rewrite monitor_loop_cons. cbn [fmap list_fmap until_magic].
  case_bool_decide as Hm; cbn [fst snd changed_pairs].
  - rewrite monitor_iteration_reports. by rewrite app_nil_r.
  - by rewrite reports_of_app, IH, monitor_iteration_reports.
Qed.

(** ** The Worker loop *)

Lemma magic_low_byte : Z.land mw.MAGIC 0xff = 0xff.
Proof. reflexivity. Qed.

Lemma low_byte_clear_not_magic t : low_byte_clear t = true -> t ≠ mw.MAGIC.
Proof.
  unfold low_byte_clear. intros Ht ->.
  apply bool_decide_eq_true in Ht. by rewrite magic_low_byte in Ht.
Qed.

Lemma worker_loop_cons Address i rest :
  worker_loop Address (i :: rest) =
  if bool_decide (wi_unload i = STATUS_SUCCESS)
  then ([EvPollUnload STATUS_SUCCESS; EvStore Address mw.MAGIC], Returned)
  else (EvPollUnload (wi_unload i) :: EvRdtsc (wi_tsc i)
        :: (if low_byte_clear (wi_tsc i)
            then [EvStore Address (wi_tsc i)] else [])
        ++ EvDelay mw.Sleep :: (worker_loop Address rest).1,
        (worker_loop Address rest).2).
Proof.
  cbn [worker_loop]. unfold worker_iteration.
  case_bool_decide as Hu; cbn [fst snd]; [by rewrite Hu|].
  by rewrite <- !app_assoc.
Qed.

Lemma no_store_no_split pre a v post :
  count is_store (pre ++ EvStore a v :: post) ≠ 0%nat.
Proof.
  rewrite count_app. unfold count at 2. simpl. lia.
Qed.

(** Closes the inductive case of a store classification: the store lies in
    the part of the trace covered by the hypothesis [IH]. *)
Ltac store_by_IH IH Htail :=
  match goal with
  | H : _ ++ _ = _ ++ EvStore _ _ :: _ |- _ =>
      destruct (IH _ _ _ _ _ Htail H) as [-> [(-> & Hl & Hp)|(Hv & Hl)]];
      (split; [reflexivity|]); [left|right];
      rewrite ?last_cons, ?Hl; repeat split; assumption || reflexivity
  end.

(** Every store in the loop (followed by any store-free [tail]) is to the
    monitored cell and is of one of two kinds: the sentinel, written right
    after a successful poll of the unload event and followed by no store; or
    the counter value just read, whose low byte is zero. *)
Lemma worker_loop_store Address inputs : forall pre a v post tail,
  count is_store tail = 0%nat ->
  (worker_loop Address inputs).1 ++ tail = pre ++ EvStore a v :: post ->
  a = Address
  /\ ((v = mw.MAGIC
       /\ last pre = Some (EvPollUnload STATUS_SUCCESS)
       /\ count is_store post = 0%nat)
      \/ (low_byte_clear v = true /\ last pre = Some (EvRdtsc v))).
Proof.
  induction inputs as [|i inputs IH]; intros pre a v post tail Htail Heq.
  - simpl in Heq. subst tail. by apply no_store_no_split in Htail.
  - rewrite worker_loop_cons in Heq. case_bool_decide as Hu; cbn [fst] in Heq.
    + destruct pre as [|p1 [|p2 pre]]; simplify_eq/=.
      * split; [done|]. left. by rewrite Htail.
      * by apply no_store_no_split in Htail.
    + destruct (low_byte_clear (wi_tsc i)) eqn:Hlow.
      * destruct pre as [|p1 [|p2 [|p3 [|p4 pre]]]]; simplify_eq/=;
          [split; [done|]; by right | by store_by_IH IH Htail].
      * destruct pre as [|p1 [|p2 [|p3 pre]]]; simplify_eq/=.
        by store_by_IH IH Htail.
Qed.

(** When the loop is left, its last two effects are the successful poll and
    the sentinel store. *)
Lemma worker_loop_returned Address inputs :
  (worker_loop Address inputs).2 = Returned ->
  exists body,
    (worker_loop Address inputs).1 =
    body ++ [EvPollUnload STATUS_SUCCESS; EvStore Address mw.MAGIC].
Proof.
  induction inputs as [|i inputs IH]; [done|].
  rewrite worker_loop_cons. case_bool_decide; cbn [fst snd].
  - intros _. by exists [].
  - intros [body ->]%IH.
    exists (EvPollUnload (wi_unload i) :: EvRdtsc (wi_tsc i)
            :: (if low_byte_clear (wi_tsc i)
                then [EvStore Address (wi_tsc i)] else [])
            ++ EvDelay mw.Sleep :: body).
    by rewrite <- !app_comm_cons, <- app_assoc.
Qed.

(** The loop is left as soon as one poll of the unload event succeeds. *)
Lemma worker_loop_exits Address inputs :
  Exists (fun i => wi_unload i = STATUS_SUCCESS) inputs ->
  (worker_loop Address inputs).2 = Returned.
Proof.
  induction inputs as [|i inputs IH]; intros Hex.
  - by apply Exists_nil in Hex.
  - rewrite worker_loop_cons. case_bool_decide; [done|].
    apply Exists_cons in Hex as [?|?]; [done | by apply IH].
Qed.

Lemma Worker_returns Ext env :
  Exists (fun i => wi_unload i = STATUS_SUCCESS) (we_inputs env) ->
  (Worker Ext env).2 = Returned.
Proof.
  intros Hex. unfold Worker.
  destruct (NT_SUCCESS (we_create env)); cbn [negb]; [|done].
  by rewrite (worker_loop_exits _ _ Hex).
Qed.

Lemma worker_join_stores cid handle Status :
  count is_store (worker_join cid handle Status) = 0%nat.
Proof. unfold worker_join. by destruct (NT_SUCCESS Status). Qed.

Lemma Worker_store Ext env pre a v post :
  (Worker Ext env).1 = pre ++ EvStore a v :: post ->
  a = mw.MonitoredAddress (mw.MonitorContext Ext)
  /\ ((v = mw.MAGIC
       /\ last pre = Some (EvPollUnload STATUS_SUCCESS)
       /\ count is_store post = 0%nat)
      \/ (low_byte_clear v = true /\ last pre = Some (EvRdtsc v))).
Proof.
  unfold Worker.
  set (A := mw.MonitoredAddress (mw.MonitorContext Ext)).
  destruct (NT_SUCCESS (we_create env)); cbn [negb fst].
  - assert (forall tail, count is_store tail = 0%nat ->
              worker_prologue env ++ (worker_loop A (we_inputs env)).1 ++ tail
              = pre ++ EvStore a v :: post ->
              a = A
              /\ ((v = mw.MAGIC
                   /\ last pre = Some (EvPollUnload STATUS_SUCCESS)
                   /\ count is_store post = 0%nat)
                  \/ (low_byte_clear v = true /\ last pre = Some (EvRdtsc v))))
      as Hgen.
    { intros tail Htail Heq. unfold worker_prologue in Heq.
      destruct pre as [|p1 [|p2 [|p3 pre]]]; simplify_eq/=.
      by store_by_IH (worker_loop_store A (we_inputs env)) Htail. }
    destruct (worker_loop A (we_inputs env)).2 eqn:Hst; cbn [fst]; intros Heq.
    + eapply Hgen; [|exact Heq]. apply worker_join_stores.
    + eapply (Hgen []); [done|]. by rewrite app_nil_r.
  - intros Heq. unfold worker_prologue in Heq.
    destruct pre as [|p1 [|p2 [|p3 [|p4 pre]]]]; simplify_eq/=.
    by destruct pre.
Qed.

(** ** Claims about the Monitor loop *)

(** C3.  For any sequence of sampled values, the iteration that first samples
    the sentinel [mw.MAGIC] is the last one: [Monitor] returns at that
    iteration, independently of anything the environment would supply later,
    having armed and sampled once per iteration up to and including it; after
    the load of the sentinel no further arming or load takes place. *)
Theorem Monitor_sentinel_terminates Context cpu pre i post :
  Forall (fun x => mi_sample x ≠ mw.MAGIC) pre ->
  mi_sample i = mw.MAGIC ->
  let run := Monitor Context {| me_cpu := cpu; me_inputs := pre ++ i :: post |} in
  run = Monitor Context {| me_cpu := cpu; me_inputs := pre ++ [i] |}
  /\ run.2 = Returned
  /\ count is_load run.1 = S (length pre)
  /\ count is_arm run.1 = S (length pre)
  /\ exists before after,
       run.1 = before ++ EvLoad (mw.MonitoredAddress Context) mw.MAGIC :: after
       /\ count is_load before = length pre
       /\ count is_load after = 0%nat
       /\ count is_arm after = 0%nat.
Proof.
  intros Hpre Hi run. subst run. unfold Monitor. cbn [me_inputs me_cpu].
  set (A := mw.MonitoredAddress Context).
  rewrite !(monitor_loop_sentinel A pre i) by done. cbn [fst snd].
  destruct (monitor_loop_running A pre 0 Hpre) as (_ & Hl & Ha).
  repeat split.
  - rewrite !count_app, Hl, monitor_iteration_loads. unfold count. simpl. lia.
  - rewrite !count_app, Ha, monitor_iteration_arms. unfold count. simpl. lia.
  - exists ([EvLog (LogMonitoring A);
             EvSetAffinity mw.MONITOR_THREAD_CPU_AFFINITY;
             EvAssert (bool_decide (cpu ≠ mw.MONITOR_THREAD_CPU_AFFINITY))]
            ++ (monitor_loop A 0 pre).1
            ++ [EvDisable; EvRdtsc (mi_start i); EvMonitor A; EvMwait]).
    unfold monitor_iteration. rewrite Hi. cbn [fst].
    eexists. split; [by rewrite <- !app_assoc|].
    rewrite !count_app, Hl. split; [unfold count; simpl; lia|].
    by case_bool_decide.
Qed.

Lemma Monitor_sentinel_terminates_witness :
  let sample v := {| mi_start := 10; mi_sample := v; mi_cpu := 0; mi_end := 25 |} in
  let Context := {| mw.MonitoredAddress := 4096; mw.MonitorExit := false |} in
  let run :=
    Monitor Context
      {| me_cpu := 0;
         me_inputs := [sample 0; sample 5] ++ sample mw.MAGIC :: [sample 7] |} in
  run.2 = Returned /\ count is_load run.1 = 3%nat.
Proof.
  intros sample Context run.
  assert (Forall (fun x => mi_sample x ≠ mw.MAGIC) [sample 0; sample 5]) as Hpre.
  { repeat constructor; vm_compute; discriminate. }
  destruct (Monitor_sentinel_terminates Context 0 [sample 0; sample 5]
              (sample mw.MAGIC) [sample 7] Hpre eq_refl)
    as (_ & Hret & Hloads & _).
  exact (conj Hret Hloads).
Defined.

(** As long as no sample is the sentinel, [Monitor] stays in its loop. *)
Lemma Monitor_keeps_looping Context env :
  Forall (fun x => mi_sample x ≠ mw.MAGIC) (me_inputs env) ->
  (Monitor Context env).2 = Looping.
Proof. intros H. unfold Monitor. cbn [snd]. by apply monitor_loop_running. Qed.

(** C4.  In one Monitor iteration a detected-store report is emitted exactly
    once, carrying the previous and the new value, when the two differ, and
    none is emitted when they are equal.  Over a run of [Monitor] the previous
    value of the first iteration is zero and that of each later iteration is
    the sample before it: the reports are exactly the consecutive pairs of
    samples (up to the first sentinel) that differ. *)
Theorem Monitor_report_on_change :
  (forall Address prev i,
     count is_report (monitor_iteration Address prev i).1.1 =
       (if bool_decide (prev ≠ mi_sample i) then 1 else 0)%nat
     /\ reports_of (monitor_iteration Address prev i).1.1 =
       (if bool_decide (prev ≠ mi_sample i) then [(prev, mi_sample i)] else []))
  /\ (forall Context env,
        reports_of (Monitor Context env).1 =
        changed_pairs 0 (until_magic (mi_sample <$> me_inputs env))).
Proof.
  split.
  - intros Address prev i. split; [|apply monitor_iteration_reports].
    unfold monitor_iteration. cbn [fst]. by case_bool_decide.
  - intros Context env. unfold Monitor. cbn [fst].
    rewrite reports_of_app. apply monitor_loop_reports.
Qed.

(** C7, as stated, fails: in an iteration the load of the monitored cell takes
    place with interrupts still disabled. *)
Lemma interrupts_disabled_while_sampling :
  ~ (forall Address prev i e flag,
       (e, flag) ∈ with_interrupt_flag true (monitor_iteration Address prev i).1.1 ->
       is_load e || is_report e = true ->
       flag = true).
Proof.
  intros H.
  specialize (H 4096 0
                {| mi_start := 10; mi_sample := 5; mi_cpu := 0; mi_end := 25 |}
                (EvLoad 4096 5) false).
  assert (false = true) as Hf; [|discriminate Hf].
  apply H; [|reflexivity].
  apply list_elem_of_In. vm_compute. tauto.
Qed.

(** C7, amended.  In every Monitor iteration interrupts are disabled first and
    enabled last: the time-stamp read, the arming, the wait, the load of the
    monitored cell and the report (when there is one) all take place with
    interrupts disabled, and the release is the final effect of the
    iteration, whether or not it is the terminating one. *)
Theorem interrupt_guard_spans_iteration Address prev i :
  exists report,
    let body :=
      [EvRdtsc (mi_start i); EvMonitor Address; EvMwait;
       EvLoad Address (mi_sample i)] ++ report in
    (monitor_iteration Address prev i).1.1 = EvDisable :: body ++ [EvEnable]
    /\ reports_of report =
       (if bool_decide (prev ≠ mi_sample i) then [(prev, mi_sample i)] else [])
    /\ with_interrupt_flag true (monitor_iteration Address prev i).1.1 =
       (EvDisable, true) :: ((fun e => (e, false)) <$> body)
       ++ [(EvEnable, false)].
Proof.
  unfold monitor_iteration. cbn [fst].
  case_bool_decide; eexists; cbn zeta; (split; [reflexivity|]); done.
Qed.

(** ** Claims about the Worker loop *)

(** C2, as stated, fails: the interval handed to the timed sleep is not 100
    milliseconds. *)
Lemma Worker_sleep_is_not_100ms :
  ~ (forall Address i,
       wi_unload i ≠ STATUS_SUCCESS ->
       exists d,
         last (worker_iteration Address i).1 = Some (EvDelay d)
         /\ relative_delay_ns d = Some (ms_to_ns 100)).
Proof.
  intros H.
  destruct (H 4096 {| wi_unload := STATUS_TIMEOUT; wi_tsc := 1 |})
    as (d & Hlast & Hd); [discriminate|].
  vm_compute in Hlast. injection Hlast as <-.
  vm_compute in Hd. discriminate Hd.
Qed.

(** C2, amended.  Every iteration of the Worker loop in which the poll of the
    unload event does not succeed ends with exactly one timed sleep, whose
    interval is the constant [mw.Sleep]: a relative time of 100000 units of
    100 ns, that is 10 milliseconds; the loop then goes round again. *)
Theorem Worker_polling_interval Address i :
  wi_unload i ≠ STATUS_SUCCESS ->
  (exists pre,
     (worker_iteration Address i).1 = pre ++ [EvDelay mw.Sleep]
     /\ count is_delay pre = 0%nat)
  /\ (worker_iteration Address i).2 = false
  /\ relative_delay_ns mw.Sleep = Some (ms_to_ns 10).
Proof.
  intros Hu. unfold worker_iteration.
  rewrite bool_decide_false by done. cbn [fst snd].
  split; [|done].
  eexists. split; [by rewrite app_assoc|].
  by destruct (low_byte_clear (wi_tsc i)).
Qed.

Lemma Worker_polling_interval_witness :
  (worker_iteration 4096 {| wi_unload := STATUS_TIMEOUT; wi_tsc := 256 |}).2
    = false
  /\ relative_delay_ns mw.Sleep = Some (ms_to_ns 10).
Proof.
  assert (STATUS_TIMEOUT ≠ STATUS_SUCCESS) as Hu by discriminate.
  exact (proj2 (Worker_polling_interval 4096
                  {| wi_unload := STATUS_TIMEOUT; wi_tsc := 256 |} Hu)).
Defined.

(** C9.  A counter value that passes the Worker's write test
    [( TimeStamp & 0xff ) == 0] is never the sentinel, whose low byte is
    [0xff]; hence an iteration that did not observe the unload event cannot
    store the sentinel. *)
Theorem timestamp_write_never_sentinel t :
  low_byte_clear t = true ->
  t ≠ mw.MAGIC
  /\ Z.land mw.MAGIC 0xff = 0xff
  /\ forall Address Status a,
       Status ≠ STATUS_SUCCESS ->
       EvStore a mw.MAGIC
         ∉ (worker_iteration Address {| wi_unload := Status; wi_tsc := t |}).1.
Proof.
  intros Ht. pose proof (low_byte_clear_not_magic t Ht) as Hne.
  repeat split; [done|].
  intros Address Status a Hs. unfold worker_iteration. cbn [wi_unload wi_tsc].
  rewrite bool_decide_false, Ht by done. cbn [fst app].
  rewrite !elem_of_cons, elem_of_nil.
  intros [?|[?|[?|[?|[]]]]]; simplify_eq.
Qed.

Lemma timestamp_write_never_sentinel_witness :
  0x1234567800 ≠ mw.MAGIC.
Proof.
  exact (proj1 (timestamp_write_never_sentinel 0x1234567800 eq_refl)).
Defined.

(** C5.  In every run of [Worker], a store of the sentinel is to the monitored
    cell, comes immediately after a poll of the unload event that succeeded,
    and is followed by no store at all.  When the Worker has left its loop,
    the sentinel store is the effect right before the lookup of, and the wait
    for, the Monitor thread, and that final part stores nothing. *)
Theorem Worker_sentinel_after_unload Ext env :
  (forall pre a post,
     (Worker Ext env).1 = pre ++ EvStore a mw.MAGIC :: post ->
     a = mw.MonitoredAddress (mw.MonitorContext Ext)
     /\ last pre = Some (EvPollUnload STATUS_SUCCESS)
     /\ count is_store post = 0%nat)
  /\ (NT_SUCCESS (we_create env) = true ->
      (Worker Ext env).2 = Returned ->
      exists body,
        (Worker Ext env).1 =
        body
        ++ [EvPollUnload STATUS_SUCCESS;
            EvStore (mw.MonitoredAddress (mw.MonitorContext Ext)) mw.MAGIC]
        ++ worker_join (we_cid env) (we_handle env) (we_lookup env)
        /\ count is_store
             (worker_join (we_cid env) (we_handle env) (we_lookup env))
           = 0%nat).
Proof.
  split.
  - intros pre a post Heq.
    destruct (Worker_store _ _ _ _ _ _ Heq)
      as [-> [(_ & Hl & Hp)|[Hv _]]]; [done|].
    by apply low_byte_clear_not_magic in Hv.
  - unfold Worker. intros ->. cbn [negb].
    destruct (worker_loop _ (we_inputs env)).2 eqn:Hst; [|done]. intros _.
    destruct (worker_loop_returned _ _ Hst) as [body ->]. cbn [fst].
    exists (worker_prologue env ++ body).
    split; [by rewrite <- !app_assoc | apply worker_join_stores].
Qed.

Lemma Worker_sentinel_after_unload_witness :
  let Ext :=
    {| mw.WorkerHandle := 1; mw.WorkerCid := 2; mw.MonitorThreadHandle := 0;
       mw.MonitorCid := 0; mw.Self := 9; mw.Unload := false;
       mw.MonitorContext :=
         {| mw.MonitoredAddress := 4096; mw.MonitorExit := false |} |} in
  let env :=
    {| we_cpu := 2; we_create := STATUS_SUCCESS; we_handle := 7; we_cid := 8;
       we_inputs := [ {| wi_unload := STATUS_TIMEOUT; wi_tsc := 256 |};
                      {| wi_unload := STATUS_SUCCESS; wi_tsc := 0 |} ];
       we_lookup := STATUS_SUCCESS |} in
  (Worker Ext env).1 =
    [EvSetAffinity 4; EvAssert true; EvCreateThread EntryMonitor 0;
     EvPollUnload 258; EvRdtsc 256; EvStore 4096 256; EvDelay (-100000);
     EvPollUnload 0]
    ++ EvStore 4096 mw.MAGIC
    :: [EvLookupThread 8 0; EvJoin EntryMonitor; EvZwClose 7; EvDereference]
  /\ (4096 = 4096
      /\ last [EvSetAffinity 4; EvAssert true; EvCreateThread EntryMonitor 0;
               EvPollUnload 258; EvRdtsc 256; EvStore 4096 256;
               EvDelay (-100000); EvPollUnload 0]
         = Some (EvPollUnload STATUS_SUCCESS)
      /\ count is_store
           [EvLookupThread 8 0; EvJoin EntryMonitor; EvZwClose 7; EvDereference]
         = 0%nat).
Proof.
  intros Ext env.
  assert ((Worker Ext env).1 =
    [EvSetAffinity 4; EvAssert true; EvCreateThread EntryMonitor 0;
     EvPollUnload 258; EvRdtsc 256; EvStore 4096 256; EvDelay (-100000);
     EvPollUnload 0]
    ++ EvStore 4096 mw.MAGIC
    :: [EvLookupThread 8 0; EvJoin EntryMonitor; EvZwClose 7; EvDereference])
    as Heq by reflexivity.
  exact (conj Heq (proj1 (Worker_sentinel_after_unload Ext env) _ _ _ Heq)).
Defined.

(** C10.  When the creation of the Monitor thread fails, [Worker] returns
    after logging the failure: it never polls the unload event, performs no
    store, and leaves memory as it found it; in particular the monitored cell
    still holds its initial zero. *)
Theorem Worker_monitor_creation_failure Ext env :
  NT_SUCCESS (we_create env) = false ->
  Worker Ext env =
    (worker_prologue env ++ [EvLog (LogUnableToCreateThread (we_create env))],
     Returned)
  /\ count is_store (Worker Ext env).1 = 0%nat
  /\ (forall Status, EvPollUnload Status ∉ (Worker Ext env).1)
  /\ (forall m, run_trace m (Worker Ext env).1 = m)
  /\ (forall addr,
        run_trace (initial_memory addr) (Worker Ext env).1 !! addr = Some 0).
Proof.
  intros Hf. unfold Worker. rewrite Hf. cbn [negb fst].
  repeat split; try done.
  - intros Status. unfold worker_prologue. cbn [app].
    rewrite !elem_of_cons, elem_of_nil.
    intros [?|[?|[?|[?|[]]]]]; simplify_eq.
  - intros addr. unfold worker_prologue, initial_memory. cbn.
    by rewrite lookup_singleton_eq.
Qed.

Lemma Worker_monitor_creation_failure_witness :
  let Ext :=
    {| mw.WorkerHandle := 1; mw.WorkerCid := 2; mw.MonitorThreadHandle := 0;
       mw.MonitorCid := 0; mw.Self := 9; mw.Unload := false;
       mw.MonitorContext :=
         {| mw.MonitoredAddress := 4096; mw.MonitorExit := false |} |} in
  let env :=
    {| we_cpu := 2; we_create := STATUS_INSUFFICIENT_RESOURCES;
       we_handle := 0; we_cid := 0;
       we_inputs := [ {| wi_unload := STATUS_TIMEOUT; wi_tsc := 256 |};
                      {| wi_unload := STATUS_SUCCESS; wi_tsc := 0 |} ];
       we_lookup := STATUS_SUCCESS |} in
  count is_store (Worker Ext env).1 = 0%nat
  /\ run_trace (initial_memory 4096) (Worker Ext env).1 !! 4096 = Some 0.
Proof.
  intros Ext env.
  destruct (Worker_monitor_creation_failure Ext env eq_refl)
    as (_ & Hs & _ & _ & Hm).
  exact (conj Hs (Hm 4096)).
Defined.

(** ** Claims about thread placement *)





(** ** Claims about [DriverEntry] *)

(** In general: once the device and the symbolic link exist, [DriverEntry]
    returns [STATUS_SUCCESS] whatever the creation of the Worker thread
    returned; on a failure it has deleted the symbolic link and the device
    and leaves no device extension behind. *)
Lemma DriverEntry_worker_creation_failure env :
  NT_SUCCESS (entry_create_device env) = true ->
  NT_SUCCESS (entry_create_symlink env) = true ->
  NT_SUCCESS (entry_create_worker env) = false ->
  er_status (DriverEntry env) = STATUS_SUCCESS
  /\ er_ext (DriverEntry env) = None
  /\ exists pre,
       er_trace (DriverEntry env) =
       pre ++ [EvCreateThread EntryWorker (entry_create_worker env);
               EvLog (LogUnableToCreateSystemThread (entry_create_worker env));
               EvIoDeleteSymbolicLink; EvIoDeleteDevice].
Proof.
  intros Hd Hs Hw. unfold DriverEntry. rewrite Hd, Hs. cbn [negb].
  rewrite Hs, Hw. cbn [negb er_status er_ext er_trace].
  repeat split.
  by exists [EvIoCreateDevice (entry_create_device env);
             EvIoCreateSymbolicLink (entry_create_symlink env);
             EvZeroExtension; EvInitUnload].
Qed.

(** C1.  With the device and the symbolic link created and the creation of
    the Worker thread failing with [STATUS_INSUFFICIENT_RESOURCES],
    [DriverEntry] deletes the symbolic link and the device, and returns
    [STATUS_SUCCESS], a status for which [NT_SUCCESS] holds. *)
Theorem DriverEntry_returns_success_on_worker_failure :
  let env :=
    {| entry_TestVariable := 4096;
       entry_create_device := STATUS_SUCCESS;
       entry_device := 77;
       entry_create_symlink := STATUS_SUCCESS;
       entry_create_worker := STATUS_INSUFFICIENT_RESOURCES;
       entry_worker_handle := 0;
       entry_worker_cid := 0 |} in
  NT_SUCCESS (entry_create_worker env) = false
  /\ er_trace (DriverEntry env) =
     [EvIoCreateDevice STATUS_SUCCESS; EvIoCreateSymbolicLink STATUS_SUCCESS;
      EvZeroExtension; EvInitUnload;
      EvCreateThread EntryWorker STATUS_INSUFFICIENT_RESOURCES;
      EvLog (LogUnableToCreateSystemThread STATUS_INSUFFICIENT_RESOURCES);
      EvIoDeleteSymbolicLink; EvIoDeleteDevice]
  /\ er_status (DriverEntry env) = STATUS_SUCCESS
  /\ NT_SUCCESS (er_status (DriverEntry env)) = true.
Proof. repeat split. Qed.

(** The sibling failure path, for comparison: when the symbolic link cannot
    be created, [DriverEntry] deletes the device and returns the failing
    status. *)
Lemma DriverEntry_symlink_failure env :
  NT_SUCCESS (entry_create_device env) = true ->
  NT_SUCCESS (entry_create_symlink env) = false ->
  er_status (DriverEntry env) = entry_create_symlink env
  /\ NT_SUCCESS (er_status (DriverEntry env)) = false.
Proof.
  intros Hd Hs. unfold DriverEntry. rewrite Hd, Hs. cbn [negb].
  by rewrite Hs.
Qed.

(** ** The single-writer rule *)

Lemma DriverEntry_stores env :
  count is_store (er_trace (DriverEntry env)) = 0%nat.
Proof.
  unfold DriverEntry.
  destruct (NT_SUCCESS (entry_create_device env)) eqn:Hd; cbn [negb].
  - destruct (NT_SUCCESS (entry_create_symlink env)) eqn:Hs; cbn [negb].
    + rewrite Hs. cbn [negb].
      by destruct (NT_SUCCESS (entry_create_worker env)).
    + rewrite Hs. cbn [negb er_trace]. by case_bool_decide.
  - rewrite Hd. cbn [negb er_trace]. by case_bool_decide.
Qed.

Lemma DriverEntry_extension env Ext :
  er_ext (DriverEntry env) = Some Ext -> Ext = initial_extension env.
Proof.
  unfold DriverEntry.
  destruct (NT_SUCCESS (entry_create_device env)) eqn:Hd; cbn [negb].
  - destruct (NT_SUCCESS (entry_create_symlink env)) eqn:Hs; cbn [negb].
    + rewrite Hs. cbn [negb].
      destruct (NT_SUCCESS (entry_create_worker env)); cbn; congruence.
    + by rewrite Hs.
  - by rewrite Hd.
Qed.

Lemma DriverUnload_stores Ext lookup :
  count is_store (DriverUnload Ext lookup) = 0%nat.
Proof. unfold DriverUnload. by destruct (NT_SUCCESS lookup). Qed.

Lemma Monitor_stores Context env :
  count is_store (Monitor Context env).1 = 0%nat.
Proof.
  unfold Monitor. cbn [fst]. rewrite count_app, monitor_loop_stores. done.
Qed.

Lemma elem_of_project t e tr : (t, e) ∈ tr -> e ∈ project t tr.
Proof.
  intros Hin. unfold project. apply list_elem_of_fmap.
  exists (t, e). split; [done|].
  apply list_elem_of_In, List.filter_In. split; [by apply list_elem_of_In|].
  by apply bool_decide_eq_true.
Qed.

(** C8.  In every execution (any interleaving of the three threads) each
    store is performed by the Worker thread, on the monitored cell
    [TestVariable]; within the Worker's own sequence of effects every store is
    either the sentinel written right after a successful poll of the unload
    event, or the counter value just read, with a zero low byte.  The Monitor
    thread performs no store; each of its iterations loads the cell once. *)
Theorem single_writer s tr :
  execution s tr ->
  (forall t a v,
     (t, EvStore a v) ∈ tr ->
     t = TWorker /\ a = entry_TestVariable (sys_entry s))
  /\ (forall pre a v post,
        project TWorker tr = pre ++ EvStore a v :: post ->
        (v = mw.MAGIC /\ last pre = Some (EvPollUnload STATUS_SUCCESS))
        \/ (low_byte_clear v = true /\ last pre = Some (EvRdtsc v)))
  /\ count is_store (project TMonitor tr) = 0%nat
  /\ count is_store (project TLoader tr) = 0%nat
  /\ (forall Address prev i,
        count is_store (monitor_iteration Address prev i).1.1 = 0%nat
        /\ count is_load (monitor_iteration Address prev i).1.1 = 1%nat
        /\ EvLoad Address (mi_sample i) ∈ (monitor_iteration Address prev i).1.1).
Proof.
  intros Hex.
  assert (count is_store (project TMonitor tr) = 0%nat) as HM.
  { rewrite (Hex TMonitor). unfold thread_trace.
    destruct (er_ext _); [|done].
    destruct (NT_SUCCESS _); [apply Monitor_stores | done]. }
  assert (count is_store (project TLoader tr) = 0%nat) as HL.
  { rewrite (Hex TLoader). unfold thread_trace.
    destruct (er_ext _); [|apply DriverEntry_stores].
    rewrite count_app, DriverEntry_stores.
    destruct (sys_unload s); [apply DriverUnload_stores | done]. }
  assert (forall pre a v post,
            project TWorker tr = pre ++ EvStore a v :: post ->
            a = entry_TestVariable (sys_entry s)
            /\ ((v = mw.MAGIC /\ last pre = Some (EvPollUnload STATUS_SUCCESS))
                \/ (low_byte_clear v = true /\ last pre = Some (EvRdtsc v))))
    as HW.
  { intros pre a v post. rewrite (Hex TWorker). unfold thread_trace.
    destruct (er_ext _) as [Ext|] eqn:HExt; [|by destruct pre].
    apply DriverEntry_extension in HExt as ->.
    intros [-> Hk]%Worker_store. split; [done|]. tauto. }
  repeat split; try done.
  - destruct t; [| done |].
    + apply elem_of_project in H. by eapply count_zero_not_elem in H.
    + apply elem_of_project in H. by eapply count_zero_not_elem in H.
  - apply elem_of_project in H.
    destruct t.
    + by eapply count_zero_not_elem in H.
    + apply list_elem_of_split in H as (pre & post & Heq).
      by destruct (HW _ _ _ _ Heq).
    + by eapply count_zero_not_elem in H.
  - intros pre a v post Heq. by destruct (HW _ _ _ _ Heq).
  - apply monitor_iteration_stores.
  - apply monitor_iteration_loads.
  - unfold monitor_iteration. cbn [fst app].
    rewrite !elem_of_cons. tauto.
Qed.

Lemma sample_run_execution : execution sample_system sample_run.
Proof. intros []; reflexivity. Qed.

(** The sample run is one a sequentially consistent memory allows, and it
    leaves the sentinel in the monitored cell. *)
Lemma sample_run_memory :
  loads_consistent (initial_memory 4096) sample_run.*2 = true
  /\ run_trace (initial_memory 4096) sample_run.*2 !! 4096 = Some mw.MAGIC.
Proof. split; reflexivity. Qed.

Lemma single_writer_witness :
  execution sample_system sample_run
  /\ (TWorker = TWorker /\ 4096 = entry_TestVariable (sys_entry sample_system))
  /\ count is_store (project TMonitor sample_run) = 0%nat.
Proof.
  assert (execution sample_system sample_run) as Hex
    by (intros []; reflexivity).
  destruct (single_writer sample_system sample_run Hex)
    as (Hstore & _ & HM & _).
  assert ((TWorker, EvStore 4096 mw.MAGIC) ∈ sample_run) as Hin.
  { apply list_elem_of_In. vm_compute. tauto. }
  exact (conj Hex (conj (Hstore TWorker 4096 mw.MAGIC Hin) HM)).
Defined.

(** * Further properties of the code *)

(** ** Traces *)

Lemma loads_of_app tr1 tr2 :
  loads_of (tr1 ++ tr2) = loads_of tr1 ++ loads_of tr2.
Proof.
  induction tr1 as [|e tr1 IH]; [done|].
  destruct e; simpl; by rewrite ?IH.
Qed.

Lemma polls_of_app tr1 tr2 :
  polls_of (tr1 ++ tr2) = polls_of tr1 ++ polls_of tr2.
Proof.
  induction tr1 as [|e tr1 IH]; [done|].
  destruct e; simpl; by rewrite ?IH.
Qed.

Lemma interrupt_flag_after_app b tr1 tr2 :
  interrupt_flag_after b (tr1 ++ tr2) =
  interrupt_flag_after (interrupt_flag_after b tr1) tr2.
Proof. unfold interrupt_flag_after. by rewrite foldl_app. Qed.

Lemma with_interrupt_flag_app tr1 : forall b tr2,
  with_interrupt_flag b (tr1 ++ tr2) =
  with_interrupt_flag b tr1
  ++ with_interrupt_flag (interrupt_flag_after b tr1) tr2.
Proof.
  induction tr1 as [|e tr1 IH]; intros b tr2; [done|].
  destruct e; simpl; by rewrite IH.
Qed.

Lemma run_trace_app m tr1 tr2 :
  run_trace m (tr1 ++ tr2) = run_trace (run_trace m tr1) tr2.
Proof. unfold run_trace. by rewrite foldl_app. Qed.

(** ** The Monitor loop, whole runs *)

Lemma monitor_loop_status Address inputs : forall prev,
  (monitor_loop Address prev inputs).2 = Returned
  <-> Exists (fun x => mi_sample x = mw.MAGIC) inputs.
Proof.
  induction inputs as [|x inputs IH]; intros prev.
  - split; [done|]. by intros ?%Exists_nil.
  - rewrite monitor_loop_cons, Exists_cons.
    case_bool_decide; cbn [snd]; [tauto|]. rewrite IH. tauto.
Qed.

(** [Monitor] returns exactly when one of its samples is the sentinel: no
    other value, and no other event, ends the loop. *)
Theorem Monitor_returns_iff Context env :
  (Monitor Context env).2 = Returned
  <-> Exists (fun x => mi_sample x = mw.MAGIC) (me_inputs env).
Proof. unfold Monitor. cbn [snd]. apply monitor_loop_status. Qed.

Lemma monitor_loop_loads Address inputs : forall prev,
  loads_of (monitor_loop Address prev inputs).1 =
    (fun v => (Address, v)) <$> until_magic (mi_sample <$> inputs)
  /\ count is_arm (monitor_loop Address prev inputs).1 =
     length (until_magic (mi_sample <$> inputs))
  /\ count is_mwait (monitor_loop Address prev inputs).1 =
     length (until_magic (mi_sample <$> inputs)).
Proof.
  assert (forall prev i,
            loads_of (monitor_iteration Address prev i).1.1
              = [(Address, mi_sample i)]
            /\ count is_arm (monitor_iteration Address prev i).1.1 = 1%nat
            /\ count is_mwait (monitor_iteration Address prev i).1.1 = 1%nat)
    as Hit.
  { intros prev i. unfold monitor_iteration. cbn [fst].
    by case_bool_decide. }
  induction inputs as [|x inputs IH]; intros prev; [done|].
  destruct (Hit prev x) as (Hl & Ha & Hw).
  rewrite monitor_loop_cons. cbn [fmap list_fmap until_magic].
  case_bool_decide; cbn [fst fmap list_fmap length]; [done|].
  destruct (IH (mi_sample x)) as (IHl & IHa & IHw).
  rewrite loads_of_app, !count_app, Hl, Ha, Hw, IHl, IHa, IHw. done.
Qed.

(** The loads [Monitor] performs are, in order, those of the samples up to
    and including the first sentinel, all at the monitored address; it arms
    the monitor and waits exactly once per load. *)
Theorem Monitor_loads Context env :
  let samples := until_magic (mi_sample <$> me_inputs env) in
  loads_of (Monitor Context env).1 =
    (fun v => (mw.MonitoredAddress Context, v)) <$> samples
  /\ count is_arm (Monitor Context env).1 = length samples
  /\ count is_mwait (Monitor Context env).1 = length samples.
Proof.
  unfold Monitor. cbn [fst].
  destruct (monitor_loop_loads (mw.MonitoredAddress Context)
              (me_inputs env) 0) as (Hl & Ha & Hw).
  rewrite loads_of_app, !count_app, Hl, Ha, Hw. done.
Qed.

Lemma monitor_loop_interrupts (P : event * bool -> Prop) Address :
  (forall prev i,
     Forall P (with_interrupt_flag true (monitor_iteration Address prev i).1.1)) ->
  forall inputs prev,
    Forall P (with_interrupt_flag true (monitor_loop Address prev inputs).1)
    /\ interrupt_flag_after true (monitor_loop Address prev inputs).1 = true.
Proof.
  intros Hit.
  assert (forall prev i,
            interrupt_flag_after true (monitor_iteration Address prev i).1.1
            = true) as Hafter.
  { intros prev i. unfold monitor_iteration. cbn [fst].
    by case_bool_decide. }
  induction inputs as [|x inputs IH]; intros prev.
  - split; [constructor | done].
  - rewrite monitor_loop_cons. case_bool_decide; cbn [fst]; [by split|].
    destruct (IH (mi_sample x)) as [IHP IHf].
    rewrite with_interrupt_flag_app, interrupt_flag_after_app, Hafter.
    split; [|done]. apply Forall_app. by split.
Qed.

(** Over a whole run of [Monitor], interrupts are disabled only from the
    enabled state and enabled only from the disabled state (the guard never
    nests); every arming, wait, load and report happens with interrupts
    disabled; and after the last recorded iteration interrupts are enabled
    again. *)
Theorem Monitor_interrupt_discipline Context env :
  (forall e flag,
     (e, flag) ∈ with_interrupt_flag true (Monitor Context env).1 ->
     (e = EvDisable -> flag = true)
     /\ (e = EvEnable -> flag = false)
     /\ (is_arm e || is_mwait e || is_load e || is_report e = true ->
         flag = false))
  /\ interrupt_flag_after true (Monitor Context env).1 = true.
Proof.
  set (P := fun x : event * bool =>
              (x.1 = EvDisable -> x.2 = true)
              /\ (x.1 = EvEnable -> x.2 = false)
              /\ (is_arm x.1 || is_mwait x.1 || is_load x.1 || is_report x.1
                  = true -> x.2 = false)).
  assert (forall prev i,
            Forall P (with_interrupt_flag true
                        (monitor_iteration (mw.MonitoredAddress Context)
                           prev i).1.1)) as Hit.
  { intros prev i. unfold monitor_iteration. cbn [fst].
    case_bool_decide; simpl; repeat constructor; simpl; congruence. }
  destruct (monitor_loop_interrupts P _ Hit (me_inputs env) 0) as [HP Hf].
  unfold Monitor. cbn [fst]. split.
  - intros e flag Hin.
    rewrite with_interrupt_flag_app in Hin.
    apply elem_of_app in Hin as [Hin|Hin].
    + simpl in Hin. rewrite !elem_of_cons, elem_of_nil in Hin.
      destruct Hin as [?|[?|[?|[]]]]; simplify_eq; repeat split; done.
    + change (P (e, flag)). revert Hin. by apply Forall_forall.
  - by rewrite interrupt_flag_after_app.
Qed.

(** The cycle count of a report is exact even when the time-stamp counter
    wraps around between the two readings: if [d] cycles (fewer than 2^64)
    elapsed after [Start], the report carries [d]. *)
Theorem report_delta_exact Address prev i d :
  prev ≠ mi_sample i ->
  0 <= d < 2 ^ 64 ->
  mi_end i = wrap64 (mi_start i + d) ->
  EvLog (LogStoreDetected (mi_cpu i) Address prev (mi_sample i) d)
    ∈ (monitor_iteration Address prev i).1.1.
Proof.
  intros Hne Hd Hend. unfold monitor_iteration. cbn [fst].
  rewrite bool_decide_true by done.
  assert (wrap64 (mi_end i - mi_start i) = d) as ->.
  { rewrite Hend. unfold wrap64. rewrite Zminus_mod_idemp_l.
    replace (mi_start i + d - mi_start i) with d by lia.
    by apply Z.mod_small. }
  cbn [app]. rewrite !elem_of_cons. tauto.
Qed.

Lemma report_delta_exact_witness :
  EvLog (LogStoreDetected 0 4096 0 5 32)
    ∈ (monitor_iteration 4096 0
         {| mi_start := 2 ^ 64 - 16; mi_sample := 5; mi_cpu := 0;
            mi_end := 16 |}).1.1.
Proof.
  apply (report_delta_exact 4096 0
           {| mi_start := 2 ^ 64 - 16; mi_sample := 5; mi_cpu := 0;
              mi_end := 16 |} 32).
  - discriminate.
  - lia.
  - reflexivity.
Defined.

Lemma changed_pairs_chained samples : forall prev,
  chained prev (changed_pairs prev samples).
Proof.
  induction samples as [|c samples IH]; intros prev; [done|].
  cbn [changed_pairs]. case_bool_decide as Hc; cbn [app chained].
  - repeat split; [done | apply IH].
  - rewrite Hc. apply IH.
Qed.

(** The reports of a run of [Monitor] form a chain that starts at zero: each
    report changes the value, and its previous value is the new value of the
    report before it (zero for the first). *)
Theorem Monitor_reports_chained Context env :
  chained 0 (reports_of (Monitor Context env).1).
Proof.
  unfold Monitor. cbn [fst]. rewrite reports_of_app.
  rewrite monitor_loop_reports. apply changed_pairs_chained.
Qed.

(** ** The Worker, whole runs *)

Lemma worker_loop_status Address inputs :
  (worker_loop Address inputs).2 = Returned
  <-> Exists (fun i => wi_unload i = STATUS_SUCCESS) inputs.
Proof.
  induction inputs as [|i inputs IH].
  - split; [done|]. by intros ?%Exists_nil.
  - rewrite worker_loop_cons, Exists_cons.
    case_bool_decide; cbn [snd]; [tauto|]. rewrite IH. tauto.
Qed.

Lemma worker_loop_only Address inputs e :
  e ∈ (worker_loop Address inputs).1 -> loop_event e = true.
Proof.
  induction inputs as [|i inputs IH]; [by intros ?%elem_of_nil|].
  rewrite worker_loop_cons. case_bool_decide; cbn [fst].
  - rewrite !elem_of_cons, elem_of_nil. intros [->|[->|[]]]; done.
  - destruct (low_byte_clear (wi_tsc i)); cbn [app];
      rewrite !elem_of_cons; intros Hin; destruct_or?; simplify_eq;
        try done; by apply IH.
Qed.

Lemma worker_loop_looping_no_sentinel Address inputs a :
  (worker_loop Address inputs).2 = Looping ->
  EvStore a mw.MAGIC ∉ (worker_loop Address inputs).1.
Proof.
  induction inputs as [|i inputs IH]; [by intros _ ?%elem_of_nil|].
  rewrite worker_loop_cons. case_bool_decide; cbn [fst snd]; [done|].
  intros Hst. specialize (IH Hst).
  destruct (low_byte_clear (wi_tsc i)) eqn:Hlow; cbn [app];
    rewrite !elem_of_cons; intros Hin; destruct_or?; simplify_eq;
      try done.
  by apply low_byte_clear_not_magic in Hlow.
Qed.

(** The Worker stores the sentinel and goes on to look up the Monitor thread
    exactly when the Monitor thread was created and one of its polls of the
    unload event succeeded; it logs the creation failure exactly when the
    creation failed.  (Until then it is in its loop; whether the wait that
    follows the lookup comes back is another matter.) *)
Theorem Worker_leaves_loop_iff Ext env :
  let tr := (Worker Ext env).1 in
  (EvStore (mw.MonitoredAddress (mw.MonitorContext Ext)) mw.MAGIC ∈ tr
   <-> NT_SUCCESS (we_create env) = true
       /\ Exists (fun i => wi_unload i = STATUS_SUCCESS) (we_inputs env))
  /\ (EvLookupThread (we_cid env) (we_lookup env) ∈ tr
      <-> NT_SUCCESS (we_create env) = true
          /\ Exists (fun i => wi_unload i = STATUS_SUCCESS) (we_inputs env))
  /\ (EvLog (LogUnableToCreateThread (we_create env)) ∈ tr
      <-> NT_SUCCESS (we_create env) = false).
Proof.
  cbn zeta. unfold Worker.
  set (A := mw.MonitoredAddress (mw.MonitorContext Ext)).
  pose proof (worker_loop_status A (we_inputs env)) as Hiff.
  pose proof (worker_loop_only A (we_inputs env)) as Honly.
  destruct (NT_SUCCESS (we_create env)) eqn:Hc; cbn [negb].
  - destruct (worker_loop A (we_inputs env)).2 eqn:Hst; cbn [fst].
    + assert (Exists (fun i => wi_unload i = STATUS_SUCCESS) (we_inputs env))
        as Hex by by apply Hiff.
      destruct (worker_loop_returned _ _ Hst) as [body Hbody].
      assert (EvStore A mw.MAGIC
                ∈ worker_prologue env ++ (worker_loop A (we_inputs env)).1
                  ++ worker_join (we_cid env) (we_handle env) (we_lookup env))
        as Hs.
      { rewrite Hbody, !elem_of_app, !elem_of_cons. tauto. }
      assert (EvLookupThread (we_cid env) (we_lookup env)
                ∈ worker_prologue env ++ (worker_loop A (we_inputs env)).1
                  ++ worker_join (we_cid env) (we_handle env) (we_lookup env))
        as Hl.
      { unfold worker_join. rewrite !elem_of_app, !elem_of_cons. tauto. }
      assert (EvLog (LogUnableToCreateThread (we_create env))
                ∉ worker_prologue env ++ (worker_loop A (we_inputs env)).1
                  ++ worker_join (we_cid env) (we_handle env) (we_lookup env))
        as Hg.
      { unfold worker_prologue, worker_join.
        rewrite !elem_of_app, !elem_of_cons, elem_of_nil.
        intros Hin; destruct_or?; simplify_eq.
        - by apply Honly in Hin.
        - destruct (NT_SUCCESS (we_lookup env));
            rewrite ?elem_of_cons, ?elem_of_nil in Hin;
            destruct_or?; simplify_eq; done. }
      split_and!; (split; [intros ? | intros ?]); done.
    + assert (~ Exists (fun i => wi_unload i = STATUS_SUCCESS) (we_inputs env))
        as Hnex by (rewrite <- Hiff; done).
      assert (EvStore A mw.MAGIC
                ∉ worker_prologue env ++ (worker_loop A (we_inputs env)).1)
        as Hs.
      { unfold worker_prologue.
        rewrite !elem_of_app, !elem_of_cons, elem_of_nil.
        intros Hin; destruct_or?; simplify_eq.
        by apply worker_loop_looping_no_sentinel in Hin. }
      assert (forall e, loop_event e = false ->
                e ∈ worker_prologue env ++ (worker_loop A (we_inputs env)).1 ->
                e ∈ worker_prologue env) as Hpro.
      { intros e He [Hin|Hin]%elem_of_app; [done|].
        apply Honly in Hin. congruence. }
      assert (EvLookupThread (we_cid env) (we_lookup env)
                ∉ worker_prologue env ++ (worker_loop A (we_inputs env)).1)
        as Hl.
      { intros Hin%Hpro; [|done]. unfold worker_prologue in Hin.
        rewrite !elem_of_cons, elem_of_nil in Hin.
        destruct_or?; simplify_eq. }
      assert (EvLog (LogUnableToCreateThread (we_create env))
                ∉ worker_prologue env ++ (worker_loop A (we_inputs env)).1)
        as Hg.
      { intros Hin%Hpro; [|done]. unfold worker_prologue in Hin.
        rewrite !elem_of_cons, elem_of_nil in Hin.
        destruct_or?; simplify_eq. }
      split_and!; (split; [intros ? | intros ?]); try done;
        by destruct_and?.
  - cbn [fst].
    assert (forall e,
              e ∈ worker_prologue env
                  ++ [EvLog (LogUnableToCreateThread (we_create env))] ->
              is_store e = false
              /\ (forall cid st, e ≠ EvLookupThread cid st)) as Hno.
    { intros e. unfold worker_prologue. cbn [app].
      rewrite !elem_of_cons, elem_of_nil.
      intros Hin; destruct_or?; simplify_eq; done. }
    split_and!; (split; [intros Hin | intros ?]); try done;
      try (by destruct_and?).
    + by destruct (Hno _ Hin).
    + destruct (Hno _ Hin) as [_ Hn]. by destruct (Hn _ _ eq_refl).
    + rewrite elem_of_app, elem_of_cons. right. by left.
Qed.

Lemma worker_loop_polls Address inputs :
  polls_of (worker_loop Address inputs).1 =
    until_success (wi_unload <$> inputs)
  /\ count is_delay (worker_loop Address inputs).1 =
     failed_polls (until_success (wi_unload <$> inputs))
  /\ (count is_store (worker_loop Address inputs).1
      <= length (until_success (wi_unload <$> inputs)))%nat.
Proof.
  induction inputs as [|i inputs (IHp & IHd & IHs)]; [done|].
  rewrite worker_loop_cons. cbn [fmap list_fmap until_success].
  case_bool_decide as Hu; cbn [fst].
  - rewrite Hu. unfold failed_polls, count. simpl. repeat split; lia.
  - unfold failed_polls in *. cbn [List.filter length].
    rewrite bool_decide_false by done. cbn [negb length].
    destruct (low_byte_clear (wi_tsc i)); unfold count in *; simpl;
      rewrite IHp, IHd; repeat split; lia.
Qed.

(** Once the Monitor thread exists, the Worker polls the unload event once
    per iteration until the first success, sleeps once after every poll that
    did not succeed, and stores at most once per poll. *)
Theorem Worker_poll_accounting Ext env :
  NT_SUCCESS (we_create env) = true ->
  let statuses := until_success (wi_unload <$> we_inputs env) in
  polls_of (Worker Ext env).1 = statuses
  /\ count is_delay (Worker Ext env).1 = failed_polls statuses
  /\ (count is_store (Worker Ext env).1 <= length statuses)%nat.
Proof.
  intros Hc. unfold Worker. rewrite Hc. cbn [negb].
  destruct (worker_loop_polls (mw.MonitoredAddress (mw.MonitorContext Ext))
              (we_inputs env)) as (Hp & Hd & Hs).
  assert (forall cid h st,
            polls_of (worker_join cid h st) = []
            /\ count is_delay (worker_join cid h st) = 0%nat
            /\ count is_store (worker_join cid h st) = 0%nat) as Hj.
  { intros cid h st. unfold worker_join. by destruct (NT_SUCCESS st). }
  destruct (Hj (we_cid env) (we_handle env) (we_lookup env)) as (Jp & Jd & Js).
  destruct (worker_loop _ (we_inputs env)).2; cbn [fst];
    rewrite ?polls_of_app, ?count_app, ?Hp, ?Hd, ?Jp, ?Jd, ?Js, ?app_nil_r;
    unfold worker_prologue, count in *; simpl; repeat split; lia.
Qed.

Lemma Worker_poll_accounting_witness :
  let Ext := initial_extension (sys_entry sample_system) in
  polls_of (Worker Ext (sys_worker sample_system)).1
    = [STATUS_TIMEOUT; STATUS_SUCCESS]
  /\ count is_delay (Worker Ext (sys_worker sample_system)).1 = 1%nat.
Proof.
  intros Ext.
  destruct (Worker_poll_accounting Ext (sys_worker sample_system) eq_refl)
    as (Hp & Hd & _).
  exact (conj Hp Hd).
Defined.

Lemma run_trace_no_store tr : forall m,
  count is_store tr = 0%nat -> run_trace m tr = m.
Proof.
  induction tr as [|e tr IH]; intros m Hc; [done|].
  change (e :: tr) with ([e] ++ tr) in *.
  rewrite count_app in Hc. rewrite run_trace_app. rewrite IH by lia.
  by destruct e.
Qed.

(** When the Worker has left its loop, the monitored cell holds the
    sentinel, whatever it held before and whatever was written meanwhile. *)
Theorem Worker_final_cell Ext env m :
  NT_SUCCESS (we_create env) = true ->
  (Worker Ext env).2 = Returned ->
  run_trace m (Worker Ext env).1
    !! mw.MonitoredAddress (mw.MonitorContext Ext) = Some mw.MAGIC.
Proof.
  unfold Worker. intros ->. cbn [negb].
  destruct (worker_loop _ (we_inputs env)).2 eqn:Hst; [|done]. intros _.
  destruct (worker_loop_returned _ _ Hst) as [body ->]. cbn [fst].
  rewrite !run_trace_app, (run_trace_no_store (worker_join _ _ _))
    by apply worker_join_stores.
  cbn. apply lookup_insert_eq.
Qed.

Lemma Worker_final_cell_witness :
  run_trace (initial_memory 4096)
    (Worker (initial_extension (sys_entry sample_system))
       (sys_worker sample_system)).1 !! 4096 = Some mw.MAGIC.
Proof.
  exact (Worker_final_cell (initial_extension (sys_entry sample_system))
           (sys_worker sample_system) (initial_memory 4096)
           eq_refl eq_refl).
Defined.

(** The word at [a] after a trace is the one before it, unless the trace
    stores to [a], in which case it is the value of one of those stores. *)
Lemma run_trace_lookup tr a : forall m,
  run_trace m tr !! a = m !! a
  \/ exists v, EvStore a v ∈ tr /\ run_trace m tr !! a = Some v.
Proof.
  induction tr as [|e tr IH]; intros m; [by left|].
  change (e :: tr) with ([e] ++ tr). rewrite run_trace_app.
  destruct (IH (run_trace m [e])) as [Heq|(v & Hin & Hv)].
  - rewrite Heq. destruct e; try (by left). cbn.
    destruct (decide (addr = a)) as [->|Hne].
    + right. exists v. split; [apply elem_of_cons; by left|].
      apply lookup_insert_eq.
    + left. by apply lookup_insert_ne.
  - right. exists v. split; [|done]. apply elem_of_cons. by right.
Qed.

Lemma Worker_store_elem Ext env a v :
  EvStore a v ∈ (Worker Ext env).1 ->
  a = mw.MonitoredAddress (mw.MonitorContext Ext)
  /\ (v = mw.MAGIC \/ low_byte_clear v = true).
Proof.
  intros (pre & post & Heq)%list_elem_of_split.
  destruct (Worker_store _ _ _ _ _ _ Heq) as [-> Hk]. split; [done|]. tauto.
Qed.

(** At every point of a run of [Worker], the monitored cell holds either
    what it held when the Worker started, or a counter value with a zero low
    byte, or the sentinel. *)
Theorem Worker_cell_invariant Ext env m tr :
  tr `prefix_of` (Worker Ext env).1 ->
  run_trace m tr !! mw.MonitoredAddress (mw.MonitorContext Ext)
    = m !! mw.MonitoredAddress (mw.MonitorContext Ext)
  \/ exists v,
       run_trace m tr !! mw.MonitoredAddress (mw.MonitorContext Ext) = Some v
       /\ (v = mw.MAGIC \/ low_byte_clear v = true).
Proof.
  intros [rest Hrest].
  destruct (run_trace_lookup tr
              (mw.MonitoredAddress (mw.MonitorContext Ext)) m)
    as [|(v & Hin & Hv)]; [by left|].
  right. exists v. split; [done|].
  apply (Worker_store_elem Ext env (mw.MonitoredAddress (mw.MonitorContext Ext))).
  rewrite Hrest. apply elem_of_app. by left.
Qed.

Lemma Worker_cell_invariant_witness :
  let tr := [EvSetAffinity 4; EvAssert true; EvCreateThread EntryMonitor 0;
             EvPollUnload 258; EvRdtsc 256; EvStore 4096 256] in
  run_trace (initial_memory 4096) tr !! 4096 = initial_memory 4096 !! 4096
  \/ exists v,
       run_trace (initial_memory 4096) tr !! 4096 = Some v
       /\ (v = mw.MAGIC \/ low_byte_clear v = true).
Proof.
  intros tr.
  assert (tr `prefix_of`
            (Worker (initial_extension (sys_entry sample_system))
               (sys_worker sample_system)).1) as Hp.
  { by exists [EvDelay (-100000); EvPollUnload 0; EvStore 4096 mw.MAGIC;
               EvLookupThread 8 0; EvJoin EntryMonitor; EvZwClose 7;
               EvDereference]. }
  exact (Worker_cell_invariant (initial_extension (sys_entry sample_system))
           (sys_worker sample_system) (initial_memory 4096) tr Hp).
Defined.

Lemma worker_loop_no_join Address inputs :
  count is_join (worker_loop Address inputs).1 = 0%nat
  /\ count is_close (worker_loop Address inputs).1 = 0%nat
  /\ count is_dereference (worker_loop Address inputs).1 = 0%nat.
Proof.
  induction inputs as [|i inputs (IHj & IHc & IHd)]; [done|].
  rewrite worker_loop_cons. case_bool_decide; cbn [fst]; [done|].
  unfold count in *. destruct (low_byte_clear (wi_tsc i)); simpl; done.
Qed.

(** The Worker waits for the Monitor thread, closes its handle and drops the
    reference to its thread object together, at most once, and exactly when
    the Monitor thread was created, the loop was left, and the thread could
    be looked up; a failed lookup leaves the handle open.  The handle closed
    and the id looked up are the ones [PsCreateSystemThread] returned. *)
Theorem Worker_join_accounting Ext env :
  let tr := (Worker Ext env).1 in
  count is_join tr = count is_close tr
  /\ count is_close tr = count is_dereference tr
  /\ (count is_join tr = 1%nat
      <-> NT_SUCCESS (we_create env) = true
          /\ Exists (fun i => wi_unload i = STATUS_SUCCESS) (we_inputs env)
          /\ NT_SUCCESS (we_lookup env) = true)
  /\ (count is_join tr = 0%nat \/ count is_join tr = 1%nat)
  /\ (forall h, EvZwClose h ∈ tr -> h = we_handle env)
  /\ (forall cid Status, EvLookupThread cid Status ∈ tr -> cid = we_cid env).
Proof.
  cbn zeta. unfold Worker.
  destruct (NT_SUCCESS (we_create env)) eqn:Hc; cbn [negb].
  - pose proof (worker_loop_status
                  (mw.MonitoredAddress (mw.MonitorContext Ext))
                  (we_inputs env)) as Hiff.
    destruct (worker_loop_no_join
                (mw.MonitoredAddress (mw.MonitorContext Ext))
                (we_inputs env)) as (Lj & Lc & Ld).
    assert (forall e, e ∈ (worker_loop
                             (mw.MonitoredAddress (mw.MonitorContext Ext))
                             (we_inputs env)).1 ->
                      is_close e = false
                      /\ forall cid st, e ≠ EvLookupThread cid st) as Hno.
    { clear. induction (we_inputs env) as [|i inputs IH]; intros e.
      - by intros ?%elem_of_nil.
      - rewrite worker_loop_cons. case_bool_decide; cbn [fst].
        + rewrite !elem_of_cons, elem_of_nil.
          intros [->|[->|[]]]; by split.
        + destruct (low_byte_clear (wi_tsc i)); cbn [app];
            rewrite !elem_of_cons;
            intros Hin; destruct_or?; simplify_eq; try (by split);
              by apply IH. }
    destruct (worker_loop _ (we_inputs env)).2 eqn:Hst; cbn [fst].
    + assert (Exists (fun i => wi_unload i = STATUS_SUCCESS) (we_inputs env))
        as Hex by by apply Hiff.
      rewrite !count_app, Lj, Lc, Ld. unfold worker_join.
      destruct (NT_SUCCESS (we_lookup env)) eqn:Hl;
        unfold worker_prologue, count; simpl.
      * repeat split; try done; try (by right).
        -- intros h. rewrite !elem_of_cons, elem_of_app, !elem_of_cons.
           rewrite elem_of_nil.
           intros Hin; destruct_or?; simplify_eq; try done.
           by destruct (Hno _ Hin).
        -- intros cid st. rewrite !elem_of_cons, elem_of_app, !elem_of_cons.
           rewrite elem_of_nil.
           intros Hin; destruct_or?; simplify_eq; try done.
           by destruct (Hno _ Hin) as [_ Hn]; destruct (Hn cid st).
      * repeat split; try done; try (by left); try (intros (_ & _ & ?); done).
        -- intros h. rewrite !elem_of_cons, elem_of_app, !elem_of_cons.
           rewrite elem_of_nil.
           intros Hin; destruct_or?; simplify_eq; try done.
           by destruct (Hno _ Hin).
        -- intros cid st. rewrite !elem_of_cons, elem_of_app, !elem_of_cons.
           rewrite elem_of_nil.
           intros Hin; destruct_or?; simplify_eq; try done.
           by destruct (Hno _ Hin) as [_ Hn]; destruct (Hn cid st).
    + assert (~ Exists (fun i => wi_unload i = STATUS_SUCCESS) (we_inputs env))
        as Hnex by (rewrite <- Hiff; done).
      rewrite !count_app, Lj, Lc, Ld.
      unfold worker_prologue, count; simpl.
      repeat split; try done; try (by left); try (intros (_ & ? & _); done).
      * intros h. rewrite !elem_of_cons.
        intros Hin; destruct_or?; simplify_eq. by destruct (Hno _ Hin).
      * intros cid st. rewrite !elem_of_cons.
        intros Hin; destruct_or?; simplify_eq.
        by destruct (Hno _ Hin) as [_ Hn]; destruct (Hn cid st).
  - cbn [fst]. unfold worker_prologue, count; simpl.
    repeat split; try done; try (by left); try (intros (? & _ & _); done).
    + intros h. rewrite !elem_of_cons, elem_of_nil.
      intros Hin; destruct_or?; simplify_eq; done.
    + intros cid st. rewrite !elem_of_cons, elem_of_nil.
      intros Hin; destruct_or?; simplify_eq; done.
Qed.

(** ** Loading and unloading *)

(** [DriverEntry] reports a failure exactly when the device or the symbolic
    link could not be created, and then with the status of the call that
    failed; in that case it has created no thread, initialised no extension
    and deleted no symbolic link.  The status of the creation of the worker
    thread never reaches the caller. *)
Theorem DriverEntry_status env :
  let r := DriverEntry env in
  NT_SUCCESS (er_status r) =
    NT_SUCCESS (entry_create_device env)
    && NT_SUCCESS (entry_create_symlink env)
  /\ (NT_SUCCESS (entry_create_device env) = false ->
      er_status r = entry_create_device env)
  /\ (NT_SUCCESS (entry_create_device env) = true ->
      NT_SUCCESS (entry_create_symlink env) = false ->
      er_status r = entry_create_symlink env)
  /\ (NT_SUCCESS (er_status r) = false ->
      er_ext r = None
      /\ count is_thread_creation (er_trace r) = 0%nat
      /\ count link_deleted (er_trace r) = 0%nat
      /\ EvZeroExtension ∉ er_trace r).
Proof.
  cbn zeta. unfold DriverEntry.
  destruct (NT_SUCCESS (entry_create_device env)) eqn:Hd; cbn [negb andb].
  - destruct (NT_SUCCESS (entry_create_symlink env)) eqn:Hs; cbn [negb].
    + rewrite Hs. cbn [negb].
      destruct (NT_SUCCESS (entry_create_worker env));
        cbn [negb er_status er_trace er_ext]; repeat split; done.
    + rewrite Hs. cbn [negb er_status er_trace er_ext].
      repeat split; try done.
      * unfold count. simpl. by case_bool_decide.
      * unfold count. simpl. by case_bool_decide.
      * cbn [app]. case_bool_decide; cbn [app];
          rewrite !elem_of_cons, elem_of_nil;
          intros Hin; destruct_or?; simplify_eq.
  - rewrite Hd. cbn [negb er_status er_trace er_ext].
    repeat split; try done.
    cbn [app]. rewrite bool_decide_false by (intros Hnull; by apply Hnull).
    cbn [app]. rewrite !elem_of_cons, elem_of_nil.
    intros Hin; destruct_or?; simplify_eq.
Qed.

(** Provided [IoCreateDevice] hands back a non-null device when it succeeds:
    the device and the symbolic link outlive [DriverEntry] exactly when the
    worker thread was created (the device extension is then in use);
    otherwise every object that was created has been deleted again. *)
Theorem DriverEntry_resource_balance env :
  (NT_SUCCESS (entry_create_device env) = true -> entry_device env ≠ 0) ->
  let r := DriverEntry env in
  (is_Some (er_ext r)
   <-> NT_SUCCESS (entry_create_device env) = true
       /\ NT_SUCCESS (entry_create_symlink env) = true
       /\ NT_SUCCESS (entry_create_worker env) = true)
  /\ (is_Some (er_ext r) ->
      count device_created (er_trace r) = 1%nat
      /\ count link_created (er_trace r) = 1%nat
      /\ count device_deleted (er_trace r) = 0%nat
      /\ count link_deleted (er_trace r) = 0%nat)
  /\ (er_ext r = None ->
      count device_deleted (er_trace r) = count device_created (er_trace r)
      /\ count link_deleted (er_trace r) = count link_created (er_trace r)).
Proof.
  intros Hdev. cbn zeta. unfold DriverEntry.
  destruct (NT_SUCCESS (entry_create_device env)) eqn:Hd; cbn [negb].
  - specialize (Hdev eq_refl).
    destruct (NT_SUCCESS (entry_create_symlink env)) eqn:Hs; cbn [negb].
    + rewrite Hs. cbn [negb].
      destruct (NT_SUCCESS (entry_create_worker env)) eqn:Hw;
        cbn [negb er_trace er_ext]; unfold count; simpl; rewrite ?Hd, ?Hs;
        repeat split; try done;
        try (by intros []); try (intros (_ & _ & ?); done).
    + rewrite Hs. cbn [negb er_trace er_ext].
      rewrite bool_decide_true by done.
      unfold count; simpl; rewrite ?Hd, ?Hs.
      repeat split; try done;
        try (by intros []); try (intros (_ & ? & _); done).
  - rewrite Hd. cbn [negb er_trace er_ext].
    rewrite bool_decide_false by (intros Hnull; by apply Hnull).
    unfold count; simpl; rewrite ?Hd.
    repeat split; try done;
      try (by intros []); try (intros (? & _ & _); done).
Qed.

Lemma DriverEntry_resource_balance_witness :
  let env :=
    {| entry_TestVariable := 4096;
       entry_create_device := STATUS_SUCCESS;
       entry_device := 77;
       entry_create_symlink := STATUS_INSUFFICIENT_RESOURCES;
       entry_create_worker := STATUS_SUCCESS;
       entry_worker_handle := 0;
       entry_worker_cid := 0 |} in
  count device_deleted (er_trace (DriverEntry env))
    = count device_created (er_trace (DriverEntry env))
  /\ count link_deleted (er_trace (DriverEntry env))
     = count link_created (er_trace (DriverEntry env)).
Proof.
  intros env.
  assert (NT_SUCCESS (entry_create_device env) = true -> entry_device env ≠ 0)
    as Hdev by (intros _; discriminate).
  exact (proj2 (proj2 (DriverEntry_resource_balance env Hdev)) eq_refl).
Defined.

(** A successful load followed by an unload: the loader thread creates the
    device and the symbolic link once each and deletes each once; it sets the
    unload event before anything else in [DriverUnload], waits for the Worker
    only if its thread object was found, and deletes the symbolic link and
    then the device after that, the reverse of the order of creation. *)
Theorem load_unload_round_trip s lookup :
  NT_SUCCESS (entry_create_device (sys_entry s)) = true ->
  NT_SUCCESS (entry_create_symlink (sys_entry s)) = true ->
  NT_SUCCESS (entry_create_worker (sys_entry s)) = true ->
  sys_unload s = Some lookup ->
  let tr := thread_trace s TLoader in
  count device_created tr = 1%nat /\ count device_deleted tr = 1%nat
  /\ count link_created tr = 1%nat /\ count link_deleted tr = 1%nat
  /\ exists wait,
       tr = [EvIoCreateDevice (entry_create_device (sys_entry s));
             EvIoCreateSymbolicLink (entry_create_symlink (sys_entry s));
             EvZeroExtension; EvInitUnload;
             EvCreateThread EntryWorker (entry_create_worker (sys_entry s));
             EvSetUnload;
             EvLookupThread (entry_worker_cid (sys_entry s)) lookup]
            ++ wait
            ++ [EvIoDeleteSymbolicLink; EvIoDeleteDevice; EvLog LogBye]
       /\ count is_join wait = (if NT_SUCCESS lookup then 1 else 0)%nat
       /\ count is_close wait = count is_join wait
       /\ count device_deleted wait = 0%nat
       /\ count link_deleted wait = 0%nat.
Proof.
  intros Hd Hs Hw Hu. cbn zeta. unfold thread_trace, DriverEntry.
  rewrite Hd, Hs. cbn [negb]. rewrite Hs, Hw, Hu.
  cbn [negb er_trace er_ext initial_extension mw.WorkerCid mw.WorkerHandle].
  unfold DriverUnload, initial_extension, count.
  destruct (NT_SUCCESS lookup); simpl; rewrite Hd, Hs;
    (repeat split; try done).
  - by exists [EvJoin EntryWorker; EvLog LogWorkerExited;
               EvZwClose (entry_worker_handle (sys_entry s)); EvDereference].
  - by exists [].
Qed.

Lemma load_unload_round_trip_witness :
  count device_created (thread_trace sample_system TLoader) = 1%nat
  /\ count device_deleted (thread_trace sample_system TLoader) = 1%nat.
Proof.
  destruct (load_unload_round_trip sample_system STATUS_SUCCESS
              eq_refl eq_refl eq_refl eq_refl) as (Hc & Hdel & _).
  exact (conj Hc Hdel).
Defined.

(** ** The request handler *)

(** Once the device and the symbolic link exist, whatever becomes of the
    worker thread, [DriverEntry] leaves a driver object that sends create and
    close requests to [DrvCreateClose], which completes any request with
    [STATUS_SUCCESS] and no data and returns the status it stored in it; all
    other entries of the dispatch table are as they were, and [DriverUnload]
    is the unload routine. *)
Theorem DriverEntry_dispatch env DriverObject DeviceObject Irp :
  length (MajorFunction DriverObject) = S IRP_MJ_MAXIMUM_FUNCTION ->
  NT_SUCCESS (entry_create_device env) = true ->
  NT_SUCCESS (entry_create_symlink env) = true ->
  let D := DriverEntry_driver_object env DriverObject in
  let completed :=
    {| IoStatus_Status := STATUS_SUCCESS; IoStatus_Information := 0;
       Completed := true |} in
  dispatch D IRP_MJ_CREATE DeviceObject Irp = Some (STATUS_SUCCESS, completed)
  /\ dispatch D IRP_MJ_CLOSE DeviceObject Irp = Some (STATUS_SUCCESS, completed)
  /\ (forall mj, mj ≠ IRP_MJ_CREATE -> mj ≠ IRP_MJ_CLOSE ->
                 MajorFunction D !! mj = MajorFunction DriverObject !! mj)
  /\ length (MajorFunction D) = S IRP_MJ_MAXIMUM_FUNCTION
  /\ DriverUnload_routine D = RoutineDriverUnload.
Proof.
  intros Hlen Hd Hs. cbn zeta. unfold DriverEntry_driver_object, dispatch.
  rewrite Hd, Hs. cbn [negb MajorFunction DriverUnload_routine].
  unfold IRP_MJ_CREATE, IRP_MJ_CLOSE, IRP_MJ_MAXIMUM_FUNCTION in *.
  repeat split.
  - rewrite list_lookup_insert_eq; [done|]. rewrite length_insert. lia.
  - rewrite list_lookup_insert_ne by done.
    rewrite list_lookup_insert_eq; [done|]. lia.
  - intros mj H0 H2. by rewrite !list_lookup_insert_ne.
  - by rewrite !length_insert.
Qed.

Lemma DriverEntry_dispatch_witness :
  let env :=
    {| entry_TestVariable := 4096;
       entry_create_device := STATUS_SUCCESS;
       entry_device := 77;
       entry_create_symlink := STATUS_SUCCESS;
       entry_create_worker := STATUS_INSUFFICIENT_RESOURCES;
       entry_worker_handle := 0;
       entry_worker_cid := 0 |} in
  let DriverObject :=
    {| MajorFunction := replicate 28 (RoutineForeign 1);
       DriverUnload_routine := RoutineForeign 0 |} in
  dispatch (DriverEntry_driver_object env DriverObject) IRP_MJ_CLOSE 77
    {| IoStatus_Status := STATUS_TIMEOUT; IoStatus_Information := 9;
       Completed := false |}
  = Some (STATUS_SUCCESS,
          {| IoStatus_Status := STATUS_SUCCESS; IoStatus_Information := 0;
             Completed := true |}).
Proof.
  intros env DriverObject.
  exact (proj1 (proj2 (DriverEntry_dispatch env DriverObject 77
                         {| IoStatus_Status := STATUS_TIMEOUT;
                            IoStatus_Information := 9;
                            Completed := false |}
                         eq_refl eq_refl eq_refl))).
Defined.

(** When the device or the symbolic link cannot be created, [DriverEntry]
    leaves the driver object untouched. *)
Lemma DriverEntry_failure_registers_nothing env DriverObject :
  NT_SUCCESS (entry_create_device env) && NT_SUCCESS (entry_create_symlink env)
    = false ->
  DriverEntry_driver_object env DriverObject = DriverObject.
Proof.
  unfold DriverEntry_driver_object.
  destruct (NT_SUCCESS (entry_create_device env)); [|done].
  by destruct (NT_SUCCESS (entry_create_symlink env)).
Qed.

(** ** Executions over a sequentially consistent memory *)

Lemma project_app t tr1 tr2 :
  project t (tr1 ++ tr2) = project t tr1 ++ project t tr2.
Proof. unfold project. by rewrite List.filter_app, fmap_app. Qed.

Lemma project_elem_of t e tr : e ∈ project t tr -> (t, e) ∈ tr.
Proof.
  unfold project. intros ([t' e'] & -> & Hin)%list_elem_of_fmap.
  apply list_elem_of_In, List.filter_In in Hin as [Hin Ht].
  apply bool_decide_eq_true in Ht. cbn in Ht. subst t'.
  by apply list_elem_of_In.
Qed.

Lemma last_elem_of (l : list event) e : last l = Some e -> e ∈ l.
Proof.
  induction l as [|x l IH]; [done|]. rewrite last_cons.
  destruct (last l) eqn:Hl.
  - intros. apply elem_of_cons. right. by apply IH.
  - intros [= ->]. apply elem_of_cons. by left.
Qed.

(** Whoever stores, it is the Worker, and to [TestVariable]. *)
Lemma thread_trace_store s t a v :
  EvStore a v ∈ thread_trace s t ->
  t = TWorker /\ a = entry_TestVariable (sys_entry s)
  /\ (v = mw.MAGIC \/ low_byte_clear v = true).
Proof.
  unfold thread_trace.
  destruct (er_ext (DriverEntry (sys_entry s))) as [Ext|] eqn:HExt.
  - apply DriverEntry_extension in HExt as ->. destruct t.
    + intros Hin. exfalso. revert Hin.
      apply (count_zero_not_elem is_store); [|done].
      rewrite count_app, DriverEntry_stores.
      destruct (sys_unload s); [apply DriverUnload_stores | done].
    + intros [-> Hv]%Worker_store_elem. done.
    + intros Hin. exfalso. revert Hin.
      apply (count_zero_not_elem is_store); [|done].
      destruct (NT_SUCCESS _); [apply Monitor_stores | done].
  - intros Hin. exfalso. revert Hin.
    apply (count_zero_not_elem is_store); [|done].
    destruct t; [apply DriverEntry_stores | done | done].
Qed.

Lemma thread_trace_worker_store s pre a v post :
  thread_trace s TWorker = pre ++ EvStore a v :: post ->
  (v = mw.MAGIC /\ last pre = Some (EvPollUnload STATUS_SUCCESS))
  \/ (low_byte_clear v = true /\ last pre = Some (EvRdtsc v)).
Proof.
  unfold thread_trace.
  destruct (er_ext (DriverEntry (sys_entry s))) as [Ext|];
    [|by destruct pre].
  intros [_ Hk]%Worker_store. tauto.
Qed.

Lemma loads_consistent_split pre a v post : forall m,
  loads_consistent m (pre ++ EvLoad a v :: post) = true ->
  run_trace m pre !! a = Some v.
Proof.
  induction pre as [|e pre IH]; intros m.
  - cbn. intros [H _]%andb_prop. by apply bool_decide_eq_true in H.
  - change (e :: pre) with ([e] ++ pre). rewrite run_trace_app.
    destruct e; cbn; try apply IH.
    intros [_ H]%andb_prop. by apply IH.
Qed.

(** Where a consistent load got its value from: the initial content of
    [TestVariable], or an earlier store of the Worker. *)
Lemma consistent_load_origin s pre t a v post :
  execution s (pre ++ (t, EvLoad a v) :: post) ->
  loads_consistent (initial_memory (entry_TestVariable (sys_entry s)))
    (pre ++ (t, EvLoad a v) :: post).*2 = true ->
  a = entry_TestVariable (sys_entry s)
  /\ (v = mw.TestVariable
      \/ ((TWorker, EvStore a v) ∈ pre
          /\ (v = mw.MAGIC \/ low_byte_clear v = true))).
Proof.
  intros Hex Hcons. rewrite fmap_app, fmap_cons in Hcons. cbn [snd] in Hcons.
  apply loads_consistent_split in Hcons.
  destruct (run_trace_lookup pre.*2 a
              (initial_memory (entry_TestVariable (sys_entry s))))
    as [Heq|(v' & Hin & Hv')].
  - rewrite Hcons in Heq. symmetry in Heq. unfold initial_memory in Heq.
    apply lookup_singleton_Some in Heq as [-> ->]. split; [done|]. by left.
  - rewrite Hcons in Hv'. injection Hv' as <-.
    apply list_elem_of_fmap in Hin as ([t' e'] & He & Hin). cbn in He. subst e'.
    assert (EvStore a v ∈ thread_trace s t') as Hst.
    { rewrite <- (Hex t'). apply elem_of_project.
      apply elem_of_app. by left. }
    apply thread_trace_store in Hst as (-> & -> & Hv).
    split; [done|]. right. by split.
Qed.

(** In an execution over a sequentially consistent memory that starts from
    the loaded driver image, every load is of [TestVariable], and every value
    loaded is the sentinel or has a zero low byte (the initial zero, or a
    counter value the Worker wrote). *)
Theorem consistent_samples s tr :
  execution s tr ->
  loads_consistent (initial_memory (entry_TestVariable (sys_entry s))) tr.*2
    = true ->
  forall t a v,
    (t, EvLoad a v) ∈ tr ->
    a = entry_TestVariable (sys_entry s)
    /\ (v = mw.MAGIC \/ low_byte_clear v = true).
Proof.
  intros Hex Hcons t a v (pre & post & ->)%list_elem_of_split.
  destruct (consistent_load_origin s pre t a v post Hex Hcons)
    as [-> [->|[_ Hv]]]; split; try done. by right.
Qed.

Lemma consistent_samples_witness :
  4096 = entry_TestVariable (sys_entry sample_system)
  /\ (256 = mw.MAGIC \/ low_byte_clear 256 = true).
Proof.
  assert (execution sample_system sample_run) as Hex
    by (intros []; reflexivity).
  assert ((TMonitor, EvLoad 4096 256) ∈ sample_run) as Hin.
  { apply list_elem_of_In. vm_compute. tauto. }
  exact (consistent_samples sample_system sample_run Hex eq_refl
           TMonitor 4096 256 Hin).
Defined.

(** In such an execution, a load that returns the sentinel comes after the
    Worker's store of the sentinel, which itself comes after a poll of the
    unload event that succeeded: the Monitor cannot be stopped by anything
    but the Worker's shutdown. *)
Theorem sentinel_load_follows_unload s pre t a post :
  execution s (pre ++ (t, EvLoad a mw.MAGIC) :: post) ->
  loads_consistent (initial_memory (entry_TestVariable (sys_entry s)))
    (pre ++ (t, EvLoad a mw.MAGIC) :: post).*2 = true ->
  exists before after,
    pre = before ++ (TWorker, EvStore a mw.MAGIC) :: after
    /\ (TWorker, EvPollUnload STATUS_SUCCESS) ∈ before.
Proof.
  intros Hex Hcons.
  destruct (consistent_load_origin s pre t a mw.MAGIC post Hex Hcons)
    as [-> [Hz|[Hin _]]]; [done|].
  apply list_elem_of_split in Hin as (before & after & ->).
  exists before, after. split; [done|].
  pose proof (Hex TWorker) as HW.
  rewrite <- !app_assoc, project_app in HW.
  cbn [app] in HW. unfold project at 2 in HW. cbn [List.filter fst] in HW.
  rewrite bool_decide_true in HW by done. cbn [fmap list_fmap snd] in HW.
  symmetry in HW.
  apply thread_trace_worker_store in HW as [[_ Hl]|[Hv _]].
  - apply project_elem_of. by apply last_elem_of.
  - by apply low_byte_clear_not_magic in Hv.
Qed.

Lemma sentinel_load_follows_unload_witness :
  exists before after,
    take 34 sample_run
    = before
      ++ (TWorker, EvStore 4096 mw.MAGIC) :: after
    /\ (TWorker, EvPollUnload STATUS_SUCCESS) ∈ before.
Proof.
  assert (execution sample_system
            (take 34 sample_run
             ++ (TMonitor, EvLoad 4096 mw.MAGIC) :: drop 35 sample_run))
    as Hex by (intros []; reflexivity).
  exact (sentinel_load_follows_unload sample_system (take 34 sample_run)
           TMonitor 4096 (drop 35 sample_run) Hex eq_refl).
Defined.
